(** * cprorealtime: real-time PPE detection pipeline

    A shallow embedding of [cprorealtime.py]: the [RealTimeDetector] class with
    its capture worker, inference worker and main control loop, the serial
    reporting to the ESP32, the FPS meter and the shutdown path.

    Conventions of the embedding.
    - Python [str] values are [string]s; [str.lower] acts on the letters
      [A]..[Z].  (Outside ASCII, [str.lower] never produces one of the letters
      of "helmet" or "vest", so the label tests are not affected.)
    - [time.time()] readings are rationals ([Q]) supplied by the environment,
      one reading per call site.
    - Everything the code obtains from the outside (camera reads, the detection
      model's output, key presses, clock readings, serial failures) is an
      explicit input of the iteration that consumes it.
    - Exceptions and blocking queue operations are outcomes of a small
      state-and-outcome monad. *)

From Stdlib Require Import Bool Arith ZArith QArith Lqa List Ascii String Lia Permutation.
Import ListNotations.

Open Scope string_scope.
Open Scope list_scope.

(** ** Configuration *)

Definition SERIAL_PORT : string := "COM5".
Definition BAUD_RATE : Z := 115200.
Definition WEBCAM_INDEX : Z := 0.
Definition TARGET_FPS : Z := 30.
Definition FRAME_SKIP : Z := 2.

(** ** Strings: [str.lower] and the [in] operator *)

Module Str.

Local Open Scope string_scope.

Definition is_upper (c : ascii) : bool :=
  ((65 <=? nat_of_ascii c) && (nat_of_ascii c <=? 90))%nat.

Definition lower_char (c : ascii) : ascii :=
  if is_upper c then ascii_of_nat (nat_of_ascii c + 32) else c.

(** [s.lower()] *)
Fixpoint lower (s : string) : string :=
  match s with
  | EmptyString => EmptyString
  | String c s' => String (lower_char c) (lower s')
  end.

(** [needle in s] *)
Fixpoint contains (needle s : string) : bool :=
  prefix needle s ||
  match s with
  | EmptyString => false
  | String _ s' => contains needle s'
  end.

(** [sep.join(xs)] *)
Fixpoint join (sep : string) (xs : list string) : string :=
  match xs with
  | [] => ""
  | [x] => x
  | x :: rest => x ++ sep ++ join sep rest
  end.

(** [mid] occurs in [s] as a contiguous block. *)
Definition substring_of (mid s : string) : Prop :=
  exists pre post, s = pre ++ mid ++ post.

(** Two strings are equal when case is ignored. *)
Definition eq_ignore_case (a b : string) : Prop := lower a = lower b.

(** [tok] is a case-insensitive substring of [s]: some contiguous block of
    [s] equals [tok] up to case. *)
Definition ci_substring (tok s : string) : Prop :=
  exists mid, substring_of mid s /\ eq_ignore_case mid tok.

End Str.

(** ** The access decision of [process_frames] (lines 86-94) *)

Definition ACCESS_GRANTED : string := "ACCESS_GRANTED".
Definition ACCESS_DENIED : string := "ACCESS_DENIED".
Definition CHECKING : string := "CHECKING".

(** [any("helmet" in label.lower() for label in labels)] *)
Definition has_helmet (labels : list string) : bool :=
  existsb (fun label => Str.contains "helmet" (Str.lower label)) labels.

(** [any("vest" in label.lower() for label in labels)] *)
Definition has_vest (labels : list string) : bool :=
  existsb (fun label => Str.contains "vest" (Str.lower label)) labels.

Definition access_status (labels : list string) : string :=
  if has_helmet labels && has_vest labels then ACCESS_GRANTED else ACCESS_DENIED.

(** ** Exceptions, outcomes *)

Inductive exn : Type :=
| RuntimeError (msg : string)
| SerialException (msg : string)
| ZeroDivisionError
| KeyboardInterrupt
| OtherError (msg : string).

(** The message [str(e)] printed by the handlers. *)
Definition exn_message (e : exn) : string :=
  match e with
  | RuntimeError msg => msg
  | SerialException msg => msg
  | ZeroDivisionError => "float division by zero"
  | KeyboardInterrupt => ""
  | OtherError msg => msg
  end.

(** [except Exception]: [KeyboardInterrupt] derives from [BaseException] only. *)
Definition is_Exception (e : exn) : bool :=
  match e with
  | KeyboardInterrupt => false
  | _ => true
  end.

(** How a piece of code ends: normally with a value, with an exception, or
    never (a queue operation that waits for ever). *)
Inductive Outcome (A : Type) : Type :=
| Done (a : A)
| Raised (e : exn)
| Blocked.

Arguments Done {A} a.
Arguments Raised {A} e.
Arguments Blocked {A}.

(** How one pass of a [while] loop ends. *)
Inductive Ctl : Type := Continue | Break.

(** ** [queue.Queue] *)

Module Queue.

Record t (A : Type) : Type := mk { maxsize : nat; items : list A }.

Arguments mk {A} maxsize items.
Arguments maxsize {A} _.
Arguments items {A} _.

(** [Queue(maxsize=n)] *)
Definition create (A : Type) (n : nat) : t A := mk n [].

Definition qsize {A} (q : t A) : nat := List.length (items q).

(** [q.empty()] *)
Definition empty {A} (q : t A) : bool := (qsize q =? 0)%nat.

(** [q.full()]: [0 < maxsize <= qsize] *)
Definition full {A} (q : t A) : bool :=
  ((0 <? maxsize q) && (maxsize q <=? qsize q))%nat.

(** [q.put(x)] waits while the queue is full: [None] stands for the wait. *)
Definition put {A} (x : A) (q : t A) : option (t A) :=
  if full q then None else Some (mk (maxsize q) (items q ++ [x])).

(** [q.get()] waits while the queue is empty: [None] stands for the wait. *)
Definition get {A} (q : t A) : option (A * t A) :=
  match items q with
  | [] => None
  | x :: rest => Some (x, mk (maxsize q) rest)
  end.

End Queue.

(** ** Devices and collaborators *)

(** Image buffers are opaque to the pipeline; a frame is identified by a tag. *)
Definition Frame : Type := nat.

(** [cv2.VideoCapture] *)
Record Camera : Type := { opened : bool }.

(** [cap.read()]: the device delivers [dev]; a released capture delivers
    nothing. *)
Definition cap_read (c : Camera) (dev : option Frame) : option Frame :=
  if opened c then dev else None.

(** [serial.Serial]: [written] collects the messages accepted by [write]. *)
Record Serial : Type := { is_open : bool; written : list string }.

(** What the serial device does with one [write]/[flush] pair. *)
Inductive SerialIO : Type :=
| IoOk
| WriteFails (msg : string)
| FlushFails (msg : string).

(** One inference result [self.model(frame, conf=...)[0]]: the class ids of
    [results.boxes.cls] ([None] when there are no boxes) and [results.plot()]. *)
Record Results : Type := { boxes_cls : option (list nat); plot : Frame }.

(** The detection model: its class names and its (opaque) inference. *)
Record Model : Type := { names : nat -> string; predict : Frame -> Results }.

(** An element of [result_queue]: [(annotated_frame, status, labels)]. *)
Definition Result : Type := (Frame * string * list string)%type.

Definition result_status (r : Result) : string := snd (fst r).

(** ** The detector object *)

Record Detector : Type := {
  model : Model;
  cap : Camera;
  ser : option Serial;
  frame_queue : Queue.t Frame;
  result_queue : Queue.t Result;
  running : bool;
  frame_count : Z;
  last_detection_time : Q;
  current_status : string;
  fps_start_time : Q;
  fps_frame_count : Z;
  current_fps : Q
}.

Definition set_cap (c : Camera) (d : Detector) : Detector :=
  {| model := model d; cap := c; ser := ser d;
     frame_queue := frame_queue d; result_queue := result_queue d;
     running := running d; frame_count := frame_count d;
     last_detection_time := last_detection_time d;
     current_status := current_status d;
     fps_start_time := fps_start_time d;
     fps_frame_count := fps_frame_count d; current_fps := current_fps d |}.

Definition set_ser (s : option Serial) (d : Detector) : Detector :=
  {| model := model d; cap := cap d; ser := s;
     frame_queue := frame_queue d; result_queue := result_queue d;
     running := running d; frame_count := frame_count d;
     last_detection_time := last_detection_time d;
     current_status := current_status d;
     fps_start_time := fps_start_time d;
     fps_frame_count := fps_frame_count d; current_fps := current_fps d |}.

Definition set_frame_queue (q : Queue.t Frame) (d : Detector) : Detector :=
  {| model := model d; cap := cap d; ser := ser d;
     frame_queue := q; result_queue := result_queue d;
     running := running d; frame_count := frame_count d;
     last_detection_time := last_detection_time d;
     current_status := current_status d;
     fps_start_time := fps_start_time d;
     fps_frame_count := fps_frame_count d; current_fps := current_fps d |}.

Definition set_result_queue (q : Queue.t Result) (d : Detector) : Detector :=
  {| model := model d; cap := cap d; ser := ser d;
     frame_queue := frame_queue d; result_queue := q;
     running := running d; frame_count := frame_count d;
     last_detection_time := last_detection_time d;
     current_status := current_status d;
     fps_start_time := fps_start_time d;
     fps_frame_count := fps_frame_count d; current_fps := current_fps d |}.

Definition set_running (b : bool) (d : Detector) : Detector :=
  {| model := model d; cap := cap d; ser := ser d;
     frame_queue := frame_queue d; result_queue := result_queue d;
     running := b; frame_count := frame_count d;
     last_detection_time := last_detection_time d;
     current_status := current_status d;
     fps_start_time := fps_start_time d;
     fps_frame_count := fps_frame_count d; current_fps := current_fps d |}.

Definition set_frame_count (n : Z) (d : Detector) : Detector :=
  {| model := model d; cap := cap d; ser := ser d;
     frame_queue := frame_queue d; result_queue := result_queue d;
     running := running d; frame_count := n;
     last_detection_time := last_detection_time d;
     current_status := current_status d;
     fps_start_time := fps_start_time d;
     fps_frame_count := fps_frame_count d; current_fps := current_fps d |}.

Definition set_last_detection_time (t : Q) (d : Detector) : Detector :=
  {| model := model d; cap := cap d; ser := ser d;
     frame_queue := frame_queue d; result_queue := result_queue d;
     running := running d; frame_count := frame_count d;
     last_detection_time := t;
     current_status := current_status d;
     fps_start_time := fps_start_time d;
     fps_frame_count := fps_frame_count d; current_fps := current_fps d |}.

Definition set_current_status (st : string) (d : Detector) : Detector :=
  {| model := model d; cap := cap d; ser := ser d;
     frame_queue := frame_queue d; result_queue := result_queue d;
     running := running d; frame_count := frame_count d;
     last_detection_time := last_detection_time d;
     current_status := st;
     fps_start_time := fps_start_time d;
     fps_frame_count := fps_frame_count d; current_fps := current_fps d |}.

Definition set_fps_start_time (t : Q) (d : Detector) : Detector :=
  {| model := model d; cap := cap d; ser := ser d;
     frame_queue := frame_queue d; result_queue := result_queue d;
     running := running d; frame_count := frame_count d;
     last_detection_time := last_detection_time d;
     current_status := current_status d;
     fps_start_time := t;
     fps_frame_count := fps_frame_count d; current_fps := current_fps d |}.

Definition set_fps_frame_count (n : Z) (d : Detector) : Detector :=
  {| model := model d; cap := cap d; ser := ser d;
     frame_queue := frame_queue d; result_queue := result_queue d;
     running := running d; frame_count := frame_count d;
     last_detection_time := last_detection_time d;
     current_status := current_status d;
     fps_start_time := fps_start_time d;
     fps_frame_count := n; current_fps := current_fps d |}.

Definition set_current_fps (f : Q) (d : Detector) : Detector :=
  {| model := model d; cap := cap d; ser := ser d;
     frame_queue := frame_queue d; result_queue := result_queue d;
     running := running d; frame_count := frame_count d;
     last_detection_time := last_detection_time d;
     current_status := current_status d;
     fps_start_time := fps_start_time d;
     fps_frame_count := fps_frame_count d; current_fps := f |}.

(** ** The world outside the object *)

(** What [cv2.imshow] is given: the annotated frame with its three text
    lines (status, FPS, detected labels). *)
Record Overlay : Type := {
  ov_frame : Frame;
  ov_status : string;
  ov_fps : Q;
  ov_detected : string
}.

(** A record of the calls the properties speak of, in the order they are
    made; [CSend] records an invocation of [send_to_esp32], whatever the
    port then does. *)
Inductive Call : Type :=
| CSend (status : string)          (* self.send_to_esp32(status) *)
| CImshow (title : string) (o : Overlay)
| CCapRelease                      (* self.cap.release() *)
| CSerClose                        (* self.ser.close() *)
| CDestroyAllWindows.              (* cv2.destroyAllWindows() *)

Record World : Type := {
  stdout : list string;     (* lines printed *)
  windows : list string;    (* names of the open HighGUI windows *)
  calls : list Call
}.

Definition World_empty : World := {| stdout := []; windows := []; calls := [] |}.

Definition World_print (line : string) (w : World) : World :=
  {| stdout := stdout w ++ [line]; windows := windows w; calls := calls w |}.

Definition World_call (c : Call) (w : World) : World :=
  {| stdout := stdout w; windows := windows w; calls := calls w ++ [c] |}.

Definition World_set_windows (ws : list string) (w : World) : World :=
  {| stdout := stdout w; windows := ws; calls := calls w |}.

(** [cv2.destroyAllWindows()] *)
Definition World_destroyAllWindows (w : World) : World :=
  World_set_windows [] (World_call CDestroyAllWindows w).

Definition St : Type := (Detector * World)%type.

(** ** The monad: state, exceptions, blocking *)

Definition M (A : Type) : Type := St -> Outcome A * St.

Definition ret {A} (a : A) : M A := fun s => (Done a, s).

Definition bind {A B} (m : M A) (k : A -> M B) : M B :=
  fun s =>
    match m s with
    | (Done a, s') => k a s'
    | (Raised e, s') => (Raised e, s')
    | (Blocked, s') => (Blocked, s')
    end.

Declare Scope py_scope.
Delimit Scope py_scope with py.
Notation "x <- m ;; k" := (bind m (fun x => k))
  (at level 61, m at next level, right associativity) : py_scope.
Notation "m ;; k" := (bind m (fun _ => k))
  (at level 61, right associativity) : py_scope.
Open Scope py_scope.

Definition raise {A} (e : exn) : M A := fun s => (Raised e, s).

Definition block {A} : M A := fun s => (Blocked, s).

Definition self : M Detector := fun s => (Done (fst s), s).

Definition update (f : Detector -> Detector) : M unit :=
  fun s => (Done tt, (f (fst s), snd s)).

Definition print (line : string) : M unit :=
  fun s => (Done tt, (fst s, World_print line (snd s))).

Definition call (c : Call) : M unit :=
  fun s => (Done tt, (fst s, World_call c (snd s))).

Definition set_windows (ws : list string) : M unit :=
  fun s => (Done tt, (fst s, World_set_windows ws (snd s))).

(** [try: body  except serial.SerialException as e: handler(e)] *)
Definition try_except_serial {A} (body : M A) (handler : string -> M A) : M A :=
  fun s =>
    match body s with
    | (Raised (SerialException msg), s') => handler msg s'
    | r => r
    end.

(** ** [RealTimeDetector.__init__] (lines 21-55) *)

Inductive SerialOpen : Type :=
| PortOpens
| PortFails (msg : string).     (* serial.Serial(...) raises SerialException *)

(** What the constructor meets: the model file, the webcam, the serial port
    and the two clock readings of lines 49 and 53. *)
Record InitEnv : Type := {
  ie_yolo : Model + string;     (* YOLO(MODEL_PATH): the model, or an error *)
  ie_camera_opens : bool;       (* self.cap.isOpened() *)
  ie_serial : SerialOpen;
  ie_clock_detection : Q;
  ie_clock_fps : Q
}.

Definition init (ie : InitEnv) (w : World) : (Detector + exn) * World :=
  match ie_yolo ie with
  | inr msg => (inr (OtherError msg), w)
  | inl m =>
      if negb (ie_camera_opens ie)
      then (inr (RuntimeError "Error: Could not open webcam"), w)
      else
        let '(port, w1) :=
          match ie_serial ie with
          | PortOpens =>
              (Some {| is_open := true; written := [] |},
               World_print ("Serial port " ++ SERIAL_PORT ++ " opened successfully")%string w)
          | PortFails msg =>
              (None, World_print ("Serial error: " ++ msg)%string w)
          end in
        (inl {| model := m;
                cap := {| opened := true |};
                ser := port;
                frame_queue := Queue.create Frame 2;
                result_queue := Queue.create Result 2;
                running := true;
                frame_count := 0;
                last_detection_time := ie_clock_detection ie;
                current_status := CHECKING;
                fps_start_time := ie_clock_fps ie;
                fps_frame_count := 0;
                current_fps := 0 |}, w1)
  end.

(** ** [capture_frames] (lines 57-69) *)

(** [self.frame_queue.put(frame)] *)
Definition put_frame (frame : Frame) : M unit :=
  d <- self ;;
  match Queue.put frame (frame_queue d) with
  | Some q => update (set_frame_queue q)
  | None => block
  end.

(** The body of the [while] loop; [dev] is what the device delivers to
    [self.cap.read()]. *)
Definition capture_body (dev : option Frame) : M Ctl :=
  d <- self ;;
  match cap_read (cap d) dev with
  | Some frame =>
      (if (frame_count d mod FRAME_SKIP =? 0)%Z
       then (d <- self ;;
             if negb (Queue.full (frame_queue d))
             then put_frame frame
             else ret tt)
       else ret tt) ;;
      d <- self ;;
      update (set_frame_count (frame_count d + 1)%Z) ;;
      ret Continue
  | None =>
      print "Error: Failed to capture frame" ;;
      ret Break
  end.

(** One pass of [while self.running: ...]. *)
Definition capture_iter (dev : option Frame) : M Ctl :=
  d <- self ;;
  if running d then capture_body dev else ret Break.

(** ** [process_frames] (lines 71-101) *)

(** [self.frame_queue.get()] *)
Definition get_frame : M Frame :=
  d <- self ;;
  match Queue.get (frame_queue d) with
  | Some (frame, q) => update (set_frame_queue q) ;; ret frame
  | None => block
  end.

(** [self.result_queue.put(r)] *)
Definition put_result (r : Result) : M unit :=
  d <- self ;;
  match Queue.put r (result_queue d) with
  | Some q => update (set_result_queue q)
  | None => block
  end.

(** Lines 81-84: the labels of the detected boxes. *)
Definition labels_of (m : Model) (results : Results) : list string :=
  match boxes_cls results with
  | Some cls => map (names m) cls
  | None => []
  end.

Definition process_body : M Ctl :=
  d <- self ;;
  (if negb (Queue.empty (frame_queue d))
   then (frame <- get_frame ;;
         d <- self ;;
         let results := predict (model d) frame in
         let labels := labels_of (model d) results in
         let status := access_status labels in
         let annotated_frame := plot results in
         if negb (Queue.full (result_queue d))
         then put_result (annotated_frame, status, labels)
         else ret tt)
   else ret tt) ;;
  ret Continue.

Definition process_iter : M Ctl :=
  d <- self ;;
  if running d then process_body else ret Break.

(** ** [send_to_esp32] (lines 103-112) *)

Definition nl : string := String (ascii_of_nat 10) EmptyString.

(** [self.ser and self.ser.is_open] *)
Definition serial_ready (port : option Serial) : bool :=
  match port with
  | Some s => is_open s
  | None => false
  end.

Definition port_not_open : exn :=
  SerialException "Attempting to use a port that is not open".

(** [self.ser.write(message.encode())] *)
Definition ser_write (io : SerialIO) (message : string) : M unit :=
  d <- self ;;
  match ser d with
  | Some s =>
      if is_open s then
        match io with
        | WriteFails msg => raise (SerialException msg)
        | _ => update (set_ser (Some {| is_open := is_open s;
                                        written := written s ++ [message] |}))
        end
      else raise port_not_open
  | None => raise (OtherError "'NoneType' object has no attribute 'write'")
  end.

(** [self.ser.flush()] *)
Definition ser_flush (io : SerialIO) : M unit :=
  d <- self ;;
  match ser d with
  | Some s =>
      if is_open s then
        match io with
        | FlushFails msg => raise (SerialException msg)
        | _ => ret tt
        end
      else raise port_not_open
  | None => raise (OtherError "'NoneType' object has no attribute 'flush'")
  end.

Definition send_to_esp32 (io : SerialIO) (status : string) : M unit :=
  call (CSend status) ;;
  d <- self ;;
  if serial_ready (ser d) then
    try_except_serial
      (let message := (status ++ nl)%string in
       ser_write io message ;;
       ser_flush io ;;
       print ("Sent to ESP32: " ++ status)%string)
      (fun e => print ("Serial communication error: " ++ e)%string)
  else ret tt.

(** ** [calculate_fps] (lines 114-122) *)

(** [now] is the reading of [time.time()] on line 118; the clock is read
    only when the window closes.  Dividing by a zero elapsed time raises. *)
Definition calculate_fps (now : Q) : M unit :=
  d <- self ;;
  update (set_fps_frame_count (fps_frame_count d + 1)%Z) ;;
  d <- self ;;
  if (30 <=? fps_frame_count d)%Z then
    let current_time := now in
    let elapsed_time := current_time - fps_start_time d in
    if Qeq_bool elapsed_time 0 then raise ZeroDivisionError
    else
      update (set_current_fps (inject_Z (fps_frame_count d) / elapsed_time)) ;;
      update (set_fps_start_time current_time) ;;
      update (set_fps_frame_count 0)
  else ret tt.

(** ** [cleanup] (lines 178-190) *)

(** [cv2.destroyAllWindows()] *)
Definition destroyAllWindows : M unit :=
  fun s => (Done tt, (fst s, World_destroyAllWindows (snd s))).

(** [cv2.imshow(title, frame)] *)
Definition imshow (title : string) (o : Overlay) : M unit :=
  call (CImshow title o) ;;
  fun s =>
    if existsb (String.eqb title) (windows (snd s))
    then ret tt s
    else set_windows (windows (snd s) ++ [title]) s.

(** [self.cap.release()] *)
Definition cap_release : M unit :=
  call CCapRelease ;;
  update (set_cap {| opened := false |}).

(** [self.ser.close()] *)
Definition ser_close : M unit :=
  call CSerClose ;;
  d <- self ;;
  match ser d with
  | Some s => update (set_ser (Some {| is_open := false; written := written s |}))
  | None => raise (OtherError "'NoneType' object has no attribute 'close'")
  end.

Definition cleanup : M unit :=
  print "Cleaning up resources..." ;;
  update (set_running false) ;;
  d <- self ;;
  (if opened (cap d) then cap_release else ret tt) ;;
  d <- self ;;
  (if serial_ready (ser d) then ser_close else ret tt) ;;
  destroyAllWindows ;;
  print "Cleanup complete".

(** ** [run] (lines 124-176) *)

(** What one pass of the control loop meets: a clock reading for each
    [time.time()] call site, the key returned by [cv2.waitKey(1)], and what
    the serial device does with each of the two possible sends. *)
Record MainEnv : Type := {
  clock_change : Q;        (* line 147 *)
  clock_fps : Q;           (* line 118, through calculate_fps *)
  key : Z;                 (* line 164 *)
  clock_check : Q;         (* line 168 *)
  clock_refresh : Q;       (* line 170 *)
  io_change : SerialIO;    (* the send of line 145 *)
  io_refresh : SerialIO    (* the send of line 169 *)
}.

(** [self.result_queue.get()] *)
Definition get_result : M Result :=
  d <- self ;;
  match Queue.get (result_queue d) with
  | Some (r, q) => update (set_result_queue q) ;; ret r
  | None => block
  end.

Definition window_title : string := "Real-Time Safety Detection".

(** [cv2.waitKey(1) & 0xFF == ord('q')] *)
Definition quit_pressed (k : Z) : bool := (Z.land k 255 =? 113)%Z.

(** [x > y] on clock readings *)
Definition Qgtb (x y : Q) : bool := negb (Qle_bool x y).

(** Lines 140-161: consume one result when there is one. *)
Definition consume_result (e : MainEnv) : M unit :=
  d <- self ;;
  if negb (Queue.empty (result_queue d)) then
    r <- get_result ;;
    let '(annotated_frame, status, labels) := r in
    d <- self ;;
    (if negb (String.eqb status (current_status d)) then
       send_to_esp32 (io_change e) status ;;
       update (set_current_status status) ;;
       update (set_last_detection_time (clock_change e))
     else ret tt) ;;
    calculate_fps (clock_fps e) ;;
    d <- self ;;
    imshow window_title
      {| ov_frame := annotated_frame;
         ov_status := ("Status: " ++ status)%string;
         ov_fps := current_fps d;
         ov_detected := ("Detected: " ++ Str.join ", " labels)%string |}
  else ret tt.

(** Lines 167-170: the periodic status update. *)
Definition periodic_update (e : MainEnv) : M unit :=
  d <- self ;;
  if Qgtb (clock_check e - last_detection_time d) 5 then
    send_to_esp32 (io_refresh e) (current_status d) ;;
    update (set_last_detection_time (clock_refresh e))
  else ret tt.

(** The body of the [while] loop of [run]. *)
Definition run_body (e : MainEnv) : M Ctl :=
  consume_result e ;;
  if quit_pressed (key e) then ret Break
  else (periodic_update e ;; ret Continue).

(** What happens to the main thread at one pass of its loop. *)
Inductive MainEvent : Type :=
| Iter (e : MainEnv)
| CtrlC.                    (* KeyboardInterrupt is delivered *)

(** One pass of [while self.running: ...]. *)
Definition run_iter (ev : MainEvent) : M Ctl :=
  d <- self ;;
  if running d then
    match ev with
    | Iter e => run_body e
    | CtrlC => raise KeyboardInterrupt
    end
  else ret Break.

(** Leaving the loop of [run]: [except KeyboardInterrupt] and [finally]. *)
Definition run_handlers (o : Outcome Ctl) : M unit :=
  match o with
  | Done _ => cleanup
  | Raised KeyboardInterrupt => print "Interrupted by user" ;; cleanup
  | Raised e => cleanup ;; raise e
  | Blocked => block
  end.

(** The handlers of the [__main__] block (lines 197-200). *)
Definition main_handlers (o : Outcome unit) : M unit :=
  match o with
  | Done _ => destroyAllWindows
  | Raised e =>
      if is_Exception e
      then print ("Error: " ++ exn_message e)%string ;; destroyAllWindows
      else destroyAllWindows ;; raise e
  | Blocked => block
  end.

(** ** The pipeline: three threads over one detector

    [run] starts [capture_frames] and [process_frames] as daemon threads and
    then loops itself.  The three loops share the detector; they are
    interleaved at the granularity of one pass of a loop (the loop test and
    the body), in any order. *)

Inductive MainStatus : Type :=
| Looping
| Returned
| Failed (e : exn)
| Stuck.

Record Pipeline : Type := {
  state : St;
  capture_alive : bool;
  process_alive : bool;
  main_status : MainStatus
}.

(** One scheduling step: a thread runs one pass of its loop. *)
Inductive Action : Type :=
| ACapture (dev : option Frame)
| AProcess
| AMain (ev : MainEvent).

Definition continues (o : Outcome Ctl) : bool :=
  match o with
  | Done Continue => true
  | _ => false
  end.

Definition status_of_outcome (o : Outcome unit) : MainStatus :=
  match o with
  | Done _ => Returned
  | Raised e => Failed e
  | Blocked => Stuck
  end.

Definition step (a : Action) (p : Pipeline) : Pipeline :=
  match a with
  | ACapture dev =>
      if capture_alive p then
        let '(o, s1) := capture_iter dev (state p) in
        {| state := s1; capture_alive := continues o;
           process_alive := process_alive p; main_status := main_status p |}
      else p
  | AProcess =>
      if process_alive p then
        let '(o, s1) := process_iter (state p) in
        {| state := s1; capture_alive := capture_alive p;
           process_alive := continues o; main_status := main_status p |}
      else p
  | AMain ev =>
      match main_status p with
      | Looping =>
          let '(o, s1) := run_iter ev (state p) in
          if continues o then
            {| state := s1; capture_alive := capture_alive p;
               process_alive := process_alive p; main_status := Looping |}
          else
            let '(o2, s2) := run_handlers o s1 in
            let '(o3, s3) := main_handlers o2 s2 in
            {| state := s3; capture_alive := capture_alive p;
               process_alive := process_alive p;
               main_status := status_of_outcome o3 |}
      | _ => p
      end
  end.

(** A schedule is run from left to right. *)
Definition run_schedule (acts : list Action) (p : Pipeline) : Pipeline :=
  fold_left (fun q a => step a q) acts p.

(** [run] up to its loop: both workers started, the banner printed. *)
Definition start (d : Detector) (w : World) : Pipeline :=
  {| state := (d, World_print "Real-time detection started. Press 'q' to quit." w);
     capture_alive := true; process_alive := true; main_status := Looping |}.

(** The [__main__] block: either the constructor raises and the handlers run
    on the bare world, or the pipeline starts. *)
Inductive Program : Type :=
| Aborted (e : exn) (w : World)
| Started (p : Pipeline).

Definition boot (ie : InitEnv) : Program :=
  match init ie World_empty with
  | (inr e, w) =>
      Aborted e
        (World_destroyAllWindows
           (if is_Exception e
            then World_print ("Error: " ++ exn_message e)%string w else w))
  | (inl d, w) => Started (start d w)
  end.

(** ** Reading a pipeline *)

Definition detector (p : Pipeline) : Detector := fst (state p).

Definition world (p : Pipeline) : World := snd (state p).

(** The messages accepted by the serial port so far. *)
Definition wire_of (d : Detector) : list string :=
  match ser d with
  | Some s => written s
  | None => []
  end.

Definition wire (p : Pipeline) : list string := wire_of (detector p).

(** The statuses [send_to_esp32] was invoked with, in order. *)
Fixpoint sends_of (cs : list Call) : list string :=
  match cs with
  | [] => []
  | CSend status :: rest => status :: sends_of rest
  | _ :: rest => sends_of rest
  end.

Definition sends (p : Pipeline) : list string := sends_of (calls (world p)).

Definition is_cap_release (c : Call) : bool :=
  match c with CCapRelease => true | _ => false end.

Definition is_ser_close (c : Call) : bool :=
  match c with CSerClose => true | _ => false end.

Definition is_destroy (c : Call) : bool :=
  match c with CDestroyAllWindows => true | _ => false end.

Definition count_calls (f : Call -> bool) (p : Pipeline) : nat :=
  List.length (filter f (calls (world p))).

(** ** The reporting protocol, as the specification words it

    "On change, invoke OutputChannel.send and update last_status /
    last_report_time ... Independently, if more than 5 seconds have elapsed
    since last_report_time, re-send the current status." *)

Module Reporter.

(** What the control loop observes in one pass: the status of the result it
    consumed (if any), whether the pass reached the periodic check (no quit
    key, no exception before it), and the clock readings. *)
Record Obs : Type := {
  consumed : option string;
  change_time : Q;
  checked : bool;
  check_time : Q;
  refresh_time : Q
}.

Record state : Type := { last_status : string; last_report_time : Q }.

Definition is_transition (st : state) (o : Obs) : bool :=
  match consumed o with
  | Some status => negb (String.eqb status (last_status st))
  | None => false
  end.

Definition after_result (st : state) (o : Obs) : state :=
  match consumed o with
  | Some status =>
      if negb (String.eqb status (last_status st))
      then {| last_status := status; last_report_time := change_time o |}
      else st
  | None => st
  end.

(** A 5-second window with no report has elapsed at the periodic check. *)
Definition window_elapsed (st : state) (o : Obs) : bool :=
  checked o && Qgtb (check_time o - last_report_time (after_result st o)) 5.

Definition after_pass (st : state) (o : Obs) : state :=
  if window_elapsed st o
  then {| last_status := last_status (after_result st o);
          last_report_time := refresh_time o |}
  else after_result st o.

(** The sends of one pass. *)
Definition pass_sends (st : state) (o : Obs) : list string :=
  (if is_transition st o then [last_status (after_result st o)] else []) ++
  (if window_elapsed st o then [last_status (after_result st o)] else []).

Fixpoint run (st : state) (obs : list Obs) : list string :=
  match obs with
  | [] => []
  | o :: rest => pass_sends st o ++ run (after_pass st o) rest
  end.

(** Number of status transitions among the consumed results. *)
Fixpoint transitions (st : state) (obs : list Obs) : nat :=
  match obs with
  | [] => 0
  | o :: rest =>
      (if is_transition st o then 1 else 0) + transitions (after_pass st o) rest
  end.

(** Number of elapsed 5-second windows without a report. *)
Fixpoint elapsed_windows (st : state) (obs : list Obs) : nat :=
  match obs with
  | [] => 0
  | o :: rest =>
      (if window_elapsed st o then 1 else 0) + elapsed_windows (after_pass st o) rest
  end.

End Reporter.

(** The reporter state a detector stands for. *)
Definition reporter_state (d : Detector) : Reporter.state :=
  {| Reporter.last_status := current_status d;
     Reporter.last_report_time := last_detection_time d |}.

(** What the main thread observes in the pass [ev] taken from [p]. *)
Definition observe (ev : MainEvent) (p : Pipeline) : option Reporter.Obs :=
  match main_status p, ev with
  | Looping, Iter e =>
      if running (detector p) then
        Some {| Reporter.consumed :=
                  option_map result_status
                    (hd_error (Queue.items (result_queue (detector p))));
                Reporter.change_time := clock_change e;
                Reporter.checked := continues (fst (run_iter ev (state p)));
                Reporter.check_time := clock_check e;
                Reporter.refresh_time := clock_refresh e |}
      else None
  | _, _ => None
  end.

(** The observations of the main thread along a schedule. *)
Fixpoint observations (acts : list Action) (p : Pipeline) : list Reporter.Obs :=
  match acts with
  | [] => []
  | a :: rest =>
      match a with
      | AMain ev =>
          match observe ev p with
          | Some o => [o]
          | None => []
          end
      | _ => []
      end ++ observations rest (step a p)
  end.

(** ** The FPS meter, as the specification words it

    "Resets its counter and window-start time exactly every 30 consumed
    results; reported FPS = 30 / elapsed_seconds for that window." *)

Module FpsSpec.

Record meter : Type := { seen : nat; window_start : Q; reported : Q }.

Definition tick (m : meter) (now : Q) : meter :=
  if (S (seen m) mod 30 =? 0)%nat
  then {| seen := S (seen m); window_start := now;
          reported := inject_Z 30 / (now - window_start m) |}
  else {| seen := S (seen m); window_start := window_start m;
          reported := reported m |}.

Definition run (m : meter) (nows : list Q) : meter := fold_left tick nows m.

End FpsSpec.

(** [calculate_fps] called once per consumed result, with the clock readings
    [nows]. *)
Fixpoint calculate_fps_each (nows : list Q) : M unit :=
  match nows with
  | [] => ret tt
  | now :: rest => calculate_fps now ;; calculate_fps_each rest
  end.

(** The clock advances strictly from reading to reading. *)
Fixpoint clock_advances (t0 : Q) (ts : list Q) : Prop :=
  match ts with
  | [] => True
  | t :: rest => t0 < t /\ clock_advances t rest
  end.

(** Number of capture passes of a schedule that read a frame. *)
Fixpoint frames_read (acts : list Action) (p : Pipeline) : nat :=
  match acts with
  | [] => 0
  | a :: rest =>
      match a with
      | ACapture dev =>
          if capture_alive p && running (detector p)
          then match cap_read (cap (detector p)) dev with
               | Some _ => 1
               | None => 0
               end
          else 0
      | _ => 0
      end + frames_read rest (step a p)
  end.

(** Some label carries the token, case ignored. *)
Definition some_label_has (tok : string) (labels : list string) : Prop :=
  exists label, In label labels /\ Str.ci_substring tok label.

(** ** Closed forms of the methods

    The state each method leaves behind, written without the monad; the
    lemmas [*_eq] below prove them equal to the methods. *)

(** The port after [send_to_esp32 io status]. *)
Definition send_port (io : SerialIO) (status : string) (port : option Serial)
  : option Serial :=
  match port with
  | Some s =>
      if is_open s then
        match io with
        | WriteFails _ => port
        | _ => Some {| is_open := true; written := written s ++ [(status ++ nl)%string] |}
        end
      else port
  | None => None
  end.

(** The lines [send_to_esp32 io status] prints. *)
Definition send_lines (io : SerialIO) (status : string) (port : option Serial)
  : list string :=
  if serial_ready port then
    match io with
    | IoOk => [("Sent to ESP32: " ++ status)%string]
    | WriteFails msg => [("Serial communication error: " ++ msg)%string]
    | FlushFails msg => [("Serial communication error: " ++ msg)%string]
    end
  else [].

Definition after_send (io : SerialIO) (status : string) (s : St) : St :=
  (set_ser (send_port io status (ser (fst s))) (fst s),
   {| stdout := stdout (snd s) ++ send_lines io status (ser (fst s));
      windows := windows (snd s);
      calls := calls (snd s) ++ [CSend status] |}).

(** Lines 144-147 for a consumed result of status [status]. *)
Definition after_change (e : MainEnv) (status : string) (s : St) : St :=
  if negb (String.eqb status (current_status (fst s))) then
    let s1 := after_send (io_change e) status s in
    (set_last_detection_time (clock_change e) (set_current_status status (fst s1)),
     snd s1)
  else s.

(** Lines 168-170. *)
Definition after_periodic (e : MainEnv) (s : St) : St :=
  if Qgtb (clock_check e - last_detection_time (fst s)) 5 then
    let s1 := after_send (io_refresh e) (current_status (fst s)) s in
    (set_last_detection_time (clock_refresh e) (fst s1), snd s1)
  else s.

Definition set_fps (c : Z) (t f : Q) (d : Detector) : Detector :=
  set_fps_frame_count c (set_fps_start_time t (set_current_fps f d)).

(** [cleanup] *)
Definition after_cleanup (s : St) : St :=
  let d := fst s in
  (set_ser (match ser d with
            | Some p => if is_open p
                        then Some {| is_open := false; written := written p |}
                        else Some p
            | None => None
            end)
     (set_cap {| opened := false |} (set_running false d)),
   {| stdout := stdout (snd s) ++ ["Cleaning up resources..."; "Cleanup complete"];
      windows := [];
      calls := calls (snd s)
               ++ (if opened (cap d) then [CCapRelease] else [])
               ++ (if serial_ready (ser d) then [CSerClose] else [])
               ++ [CDestroyAllWindows] |}).

(** A capture pass that read [frame]. *)
Definition after_capture (frame : Frame) (d : Detector) : Detector :=
  let fq := frame_queue d in
  set_frame_count (frame_count d + 1)%Z
    (set_frame_queue
       (if (frame_count d mod FRAME_SKIP =? 0)%Z && negb (Queue.full fq)
        then Queue.mk (Queue.maxsize fq) (Queue.items fq ++ [frame])
        else fq) d).

(** The result the inference worker builds from [frame]. *)
Definition result_of (m : Model) (frame : Frame) : Result :=
  let results := predict m frame in
  let labels := labels_of m results in
  (plot results, access_status labels, labels).

(** An inference pass. *)
Definition after_process (d : Detector) : Detector :=
  let fq := frame_queue d in
  let rq := result_queue d in
  match Queue.items fq with
  | [] => d
  | frame :: rest =>
      set_result_queue
        (if negb (Queue.full rq)
         then Queue.mk (Queue.maxsize rq) (Queue.items rq ++ [result_of (model d) frame])
         else rq)
        (set_frame_queue (Queue.mk (Queue.maxsize fq) rest) d)
  end.

(** Lines 141-147: the head of the result queue is taken and compared with
    the current status. *)
Definition after_get (e : MainEnv) (s : St) : St :=
  let rq := result_queue (fst s) in
  match Queue.items rq with
  | [] => s
  | r :: rest =>
      after_change e (result_status r)
        (set_result_queue (Queue.mk (Queue.maxsize rq) rest) (fst s), snd s)
  end.

Definition is_imshow (c : Call) : bool :=
  match c with CImshow _ _ => true | _ => false end.

(** Leaving the loop of [run] with outcome [o]: the handlers of [run] and of
    the [__main__] block. *)
Definition shutdown (o : Outcome Ctl) (s : St) : St :=
  let s1 :=
    match o with
    | Raised KeyboardInterrupt => (fst s, World_print "Interrupted by user" (snd s))
    | _ => s
    end in
  let s2 := after_cleanup s1 in
  let w3 :=
    match o with
    | Raised e =>
        if is_Exception e
        then World_print ("Error: " ++ exn_message e)%string (snd s2)
        else snd s2
    | _ => snd s2
    end in
  (fst s2, World_destroyAllWindows w3).

(** How the main thread can leave its loop at the pass [ev] taken from
    state [s]: the loop test fails, Ctrl-C arrives, or the pass breaks on the
    quit key or raises. *)
Definition left_loop (ev : MainEvent) (s : St) (o : Outcome Ctl) (s1 : St) : Prop :=
  (s1 = s /\ running (fst s) = false /\ o = Done Break)
  \/ (s1 = s /\ running (fst s) = true /\ ev = CtrlC /\ o = Raised KeyboardInterrupt)
  \/ (exists e, ev = Iter e /\ running (fst s) = true /\ run_body e s = (o, s1)
               /\ (o = Done Break \/ o = Raised ZeroDivisionError)).

(** The observation a scheduling step adds (none, or one). *)
Definition observed (a : Action) (p : Pipeline) : list Reporter.Obs :=
  match a with
  | AMain ev =>
      match observe ev p with
      | Some o => [o]
      | None => []
      end
  | _ => []
  end.

(** The kinds of scheduling step. *)
Inductive StepView (a : Action) (p p' : Pipeline) : Prop :=
| SvIdle :
    state p' = state p -> main_status p' = main_status p ->
    observed a p = [] -> StepView a p p'
| SvCaptured (dev : option Frame) (frame : Frame) :
    a = ACapture dev ->
    capture_alive p = true ->
    running (detector p) = true ->
    cap_read (cap (detector p)) dev = Some frame ->
    state p' = (after_capture frame (detector p), world p) ->
    capture_alive p' = true ->
    main_status p' = main_status p -> StepView a p p'
| SvReadFailed (dev : option Frame) :
    a = ACapture dev ->
    capture_alive p = true ->
    running (detector p) = true ->
    cap_read (cap (detector p)) dev = None ->
    state p' = (detector p, World_print "Error: Failed to capture frame" (world p)) ->
    capture_alive p' = false ->
    main_status p' = main_status p -> StepView a p p'
| SvProcessed :
    a = AProcess ->
    process_alive p = true ->
    running (detector p) = true ->
    state p' = (after_process (detector p), world p) ->
    main_status p' = main_status p -> StepView a p p'
| SvLooped (e : MainEnv) :
    a = AMain (Iter e) ->
    main_status p = Looping ->
    running (detector p) = true ->
    fst (run_body e (state p)) = Done Continue ->
    state p' = snd (run_body e (state p)) ->
    main_status p' = Looping -> StepView a p p'
| SvLeft (ev : MainEvent) (o : Outcome Ctl) (s1 : St) :
    a = AMain ev ->
    main_status p = Looping ->
    left_loop ev (state p) o s1 ->
    state p' = shutdown o s1 ->
    main_status p' = Returned -> StepView a p p'.


(** ** Predicates of the statements *)

(** A decided status: one of the two the inference worker produces. *)
Definition decided (status : string) : Prop :=
  status = ACCESS_GRANTED \/ status = ACCESS_DENIED.

(** A wire message [<STATUS>\n] whose status satisfies [P]. *)
Definition wire_message (P : string -> Prop) (m : string) : Prop :=
  exists status, m = (status ++ nl)%string /\ P status.

(** The queued results are decided and the current status satisfies [P]. *)
Definition status_inv (P : string -> Prop) (s : St) : Prop :=
  Forall (fun r => decided (result_status r)) (Queue.items (result_queue (fst s)))
  /\ P (current_status (fst s)).

(** From [s] to [s'] the wire only grows, by messages whose status
    satisfies [P]. *)
Definition wire_grows (P : string -> Prop) (s s' : St) : Prop :=
  exists new, wire_of (fst s') = wire_of (fst s) ++ new
              /\ Forall (wire_message P) new.

(** ** Concrete inputs for the examples *)

Definition demo_model : Model :=
  {| names := fun cls => match cls with
                         | O => "Hard Helmet"
                         | S O => "Safety_Vest"
                         | _ => "person"
                         end;
     predict := fun frame => {| boxes_cls := Some [0%nat; 1%nat]; plot := frame |} |}.

Definition demo_init (port : SerialOpen) : InitEnv :=
  {| ie_yolo := inl demo_model;
     ie_camera_opens := true;
     ie_serial := port;
     ie_clock_detection := 0;
     ie_clock_fps := 0 |}.

(** A pass of the control loop at clock reading [t] with key [k] and a
    healthy serial device. *)
Definition demo_env (k : Z) (t : Q) : MainEnv :=
  {| clock_change := t; clock_fps := t; key := k; clock_check := t;
     clock_refresh := t; io_change := IoOk; io_refresh := IoOk |}.

Definition no_key : Z := (-1)%Z.
Definition key_q : Z := 113%Z.

(** The detector [__init__] builds, and the port it holds. *)
Definition initial_port (o : SerialOpen) : option Serial :=
  match o with
  | PortOpens => Some {| is_open := true; written := [] |}
  | PortFails _ => None
  end.

Definition initial_detector (m : Model) (o : SerialOpen) (t_detection t_fps : Q)
  : Detector :=
  {| model := m;
     cap := {| opened := true |};
     ser := initial_port o;
     frame_queue := Queue.create Frame 2;
     result_queue := Queue.create Result 2;
     running := true;
     frame_count := 0;
     last_detection_time := t_detection;
     current_status := CHECKING;
     fps_start_time := t_fps;
     fps_frame_count := 0;
     current_fps := 0 |}.

(** A status that can be current: decided, or the initial CHECKING. *)
Definition reportable (status : string) : Prop :=
  decided status \/ status = CHECKING.

(** The pipeline [demo_init] starts. *)
Definition demo_pipeline (port : SerialOpen) : Pipeline :=
  match boot (demo_init port) with
  | Started p => p
  | Aborted _ w => start (initial_detector demo_model port 0 0) w
  end.

(** The frame queue keeps its capacity of 2, and holds nothing before the
    first frame is read. *)
Definition capture_inv (d : Detector) : Prop :=
  Queue.maxsize (frame_queue d) = 2%nat
  /\ (List.length (Queue.items (frame_queue d)) <= 2)%nat
  /\ (0 <= frame_count d)%Z
  /\ (frame_count d = 0%Z -> Queue.items (frame_queue d) = []).

(** [frame] has been appended to the frame queue between [d] and [d']. *)
Definition forwarded (frame : Frame) (d d' : Detector) : Prop :=
  Queue.items (frame_queue d') = Queue.items (frame_queue d) ++ [frame].

(** Four frames read with nobody consuming: the frame queue is full. *)
Definition demo_four_reads : list Action :=
  [ACapture (Some 0%nat); ACapture (Some 1%nat);
   ACapture (Some 2%nat); ACapture (Some 3%nat)].

(** Clock readings 1, 2, ..., 29. *)
Definition demo_clock : list Q :=
  map (fun n => inject_Z (Z.of_nat n)) (seq 1 29).

(** A call that releases a resource. *)
Definition is_release (c : Call) : bool :=
  is_cap_release c || is_ser_close c || is_destroy c.

(** What holds of the state while the main thread is in its loop: the
    detector runs, the camera is open, the port is as it was opened, and
    nothing has been released. *)
Definition looping_inv (o : SerialOpen) (s : St) : Prop :=
  running (fst s) = true
  /\ opened (cap (fst s)) = true
  /\ serial_ready (ser (fst s)) = serial_ready (initial_port o)
  /\ filter is_release (calls (snd s)) = [].

(** One frame captured and inferred, its result waiting in the result
    queue; the port failed to open. *)
Definition demo_pending : St :=
  state (run_schedule [ACapture (Some 0%nat); AProcess]
           (demo_pipeline (PortFails "no port"))).

Definition demo_result : Result :=
  (0%nat, ACCESS_GRANTED, ["Hard Helmet"; "Safety_Vest"]).

(** ** Further predicates *)

(** The result queue keeps its capacity of 2 and holds only results the
    inference worker built with the model [m]. *)
Definition result_inv (m : Model) (d : Detector) : Prop :=
  model d = m
  /\ Queue.maxsize (result_queue d) = 2%nat
  /\ (List.length (Queue.items (result_queue d)) <= 2)%nat
  /\ Forall (fun r => exists frame, r = result_of m frame)
       (Queue.items (result_queue d)).

(** The line [send_to_esp32] writes for a status. *)
Definition line (status : string) : string := (status ++ nl)%string.

(** A pass of the control loop during which the serial device works. *)
Definition healthy_env (e : MainEnv) : Prop :=
  io_change e = IoOk /\ io_refresh e = IoOk.

Definition healthy_action (a : Action) : Prop :=
  match a with
  | AMain (Iter e) => healthy_env e
  | _ => True
  end.


(** The last status sent, [CHECKING] when none was. *)
Definition last_sent (w : World) : string := last (sends_of (calls w)) CHECKING.

(** A pipeline in its loop with a result waiting and 29 results already
    counted in the current FPS window. *)
Definition demo_window_closing : Pipeline :=
  {| state := (set_fps_frame_count 29 (fst demo_pending), snd demo_pending);
     capture_alive := true;
     process_alive := true;
     main_status := Looping |}.

(** * Properties *)

(** ** Strings *)

Section StrFacts.

Local Open Scope string_scope.

Lemma prefix_iff (p s : string) :
  prefix p s = true <-> exists post, s = p ++ post.
Proof.
  revert s; induction p as [|c p IH]; intros s; simpl.
  - split; [intros _; now exists s | intros _; now destruct s].
  - destruct s as [|c' s].
    + split; [discriminate | intros [post H]; discriminate].
    + simpl. destruct (Ascii.ascii_dec c c') as [Heq|Hne].
      * subst c'. rewrite IH. split; intros [post H]; exists post.
        -- now rewrite H.
        -- now inversion H.
      * split; [discriminate | intros [post H]; inversion H; congruence].
Qed.

Lemma contains_iff (needle s : string) :
  Str.contains needle s = true <-> Str.substring_of needle s.
Proof.
  unfold Str.substring_of.
  induction s as [|c s IH]; cbn [Str.contains].
  - rewrite orb_false_r, prefix_iff. split.
    + intros [post H]. now exists "", post.
    + intros [[|c pre] [post H]]; simpl in H; [now exists post | discriminate].
  - rewrite orb_true_iff, prefix_iff, IH. split.
    + intros [[post H] | [pre [post H]]].
      * now exists "", post.
      * exists (String c pre), post. simpl. now rewrite H.
    + intros [[|c' pre] [post H]]; simpl in H.
      * left. now exists post.
      * right. inversion H. now exists pre, post.
Qed.

Lemma lower_app (a b : string) : Str.lower (a ++ b) = Str.lower a ++ Str.lower b.
Proof. induction a as [|c a IH]; simpl; [reflexivity | now rewrite IH]. Qed.

Lemma lower_split (s a b : string) :
  Str.lower s = a ++ b ->
  exists a' b', s = a' ++ b' /\ Str.lower a' = a /\ Str.lower b' = b.
Proof.
  revert s; induction a as [|c a IH]; intros s H; simpl in H.
  - now exists "", s.
  - destruct s as [|c' s]; simpl in H; [discriminate|].
    inversion H as [[Hc Hs]].
    destruct (IH s Hs) as (a' & b' & -> & Ha & Hb).
    exists (String c' a'), b'. simpl. now rewrite Ha, Hb.
Qed.

(** Searching the lowered label for a lower-case token is searching the
    label for the token up to case. *)
Lemma contains_lower_iff (tok label : string) :
  Str.lower tok = tok ->
  (Str.contains tok (Str.lower label) = true <-> Str.ci_substring tok label).
Proof.
  intros Htok. rewrite contains_iff.
  unfold Str.ci_substring, Str.substring_of, Str.eq_ignore_case. split.
  - intros (pre & post & H).
    apply lower_split in H as (pre' & rest & -> & _ & H).
    apply lower_split in H as (mid & post' & -> & Hmid & _).
    exists mid. split; [now exists pre', post' | now rewrite Htok].
  - intros (mid & (pre & post & ->) & Hmid).
    exists (Str.lower pre), (Str.lower post).
    now rewrite !lower_app, Hmid, Htok.
Qed.

End StrFacts.

(** ** The access decision *)

Lemma has_helmet_iff (labels : list string) :
  has_helmet labels = true <-> some_label_has "helmet" labels.
Proof.
  unfold has_helmet, some_label_has. rewrite existsb_exists.
  split; intros (l & Hin & H); exists l; split; auto;
    now apply (contains_lower_iff "helmet" l eq_refl).
Qed.

Lemma has_vest_iff (labels : list string) :
  has_vest labels = true <-> some_label_has "vest" labels.
Proof.
  unfold has_vest, some_label_has. rewrite existsb_exists.
  split; intros (l & Hin & H); exists l; split; auto;
    now apply (contains_lower_iff "vest" l eq_refl).
Qed.

(** C1: the status computed for a list of labels is ACCESS_GRANTED exactly
    when some label contains "helmet" and some label contains "vest", case
    ignored; in every other case, the empty list included, it is
    ACCESS_DENIED. *)
Theorem access_status_granted_iff (labels : list string) :
  (access_status labels = ACCESS_GRANTED <->
   some_label_has "helmet" labels /\ some_label_has "vest" labels)
  /\ (access_status labels = ACCESS_DENIED <->
      ~ (some_label_has "helmet" labels /\ some_label_has "vest" labels))
  /\ access_status [] = ACCESS_DENIED.
Proof.
  unfold access_status.
  rewrite <- has_helmet_iff, <- has_vest_iff, <- andb_true_iff.
  destruct (has_helmet labels && has_vest labels).
  - repeat split; auto; try discriminate. intros H; now destruct H.
  - repeat split; auto; try discriminate.
Qed.

(** ** The methods in closed form *)

Lemma set_ser_same (d : Detector) : set_ser (ser d) d = d.
Proof. now destruct d. Qed.


Ltac open_detector d :=
  destruct d as [mdl cam port fq rq run_ fcount ldt cstat fstart fcnt cfps].

Ltac open_state s :=
  let d := fresh "d" in let w := fresh "w" in
  destruct s as [d w]; open_detector d.

Lemma send_to_esp32_eq (io : SerialIO) (status : string) (s : St) :
  send_to_esp32 io status s = (Done tt, after_send io status s).
Proof.
  open_state s. unfold send_to_esp32, after_send, send_lines, send_port.
  unfold bind, call, self, try_except_serial, ser_write, ser_flush, bind, self,
    update, raise, ret, print, World_call, World_print; cbn -[String.append].
  destruct port as [[o wr]|]; cbn -[String.append]; [destruct o; [destruct io|] |];
    cbn -[String.append]; rewrite ?app_nil_r; reflexivity.
Qed.

Lemma calculate_fps_runs (now : Q) (s : St) :
  exists o c t f,
    calculate_fps now s = (o, (set_fps c t f (fst s), snd s))
    /\ (o = Done tt \/ o = Raised ZeroDivisionError).
Proof.
  open_state s.
  unfold calculate_fps, bind, self, update, raise, ret, set_fps; cbn.
  destruct (30 <=? fcnt + 1)%Z.
  - destruct (Qeq_bool (now - fstart) 0).
    + do 4 eexists. split; [reflexivity | now right].
    + do 4 eexists. split; [reflexivity | now left].
  - do 4 eexists. split; [reflexivity | now left].
Qed.

Lemma imshow_runs (title : string) (o : Overlay) (s : St) :
  exists wins,
    imshow title o s =
      (Done tt, (fst s, {| stdout := stdout (snd s); windows := wins;
                           calls := calls (snd s) ++ [CImshow title o] |})).
Proof.
  destruct s as [d w].
  unfold imshow, bind, call, ret, set_windows, World_call, World_set_windows; cbn.
  destruct (existsb (String.eqb title) (windows w)); eexists; reflexivity.
Qed.

Lemma consume_result_empty (e : MainEnv) (s : St) :
  Queue.items (result_queue (fst s)) = [] ->
  consume_result e s = (Done tt, s).
Proof.
  destruct s as [d w]. cbn. intros H.
  unfold consume_result, bind, self, Queue.empty, Queue.qsize; cbn.
  now rewrite H.
Qed.

Lemma consume_result_head (e : MainEnv) (s : St) (r : Result) (rest : list Result) :
  Queue.items (result_queue (fst s)) = r :: rest ->
  let q := Queue.mk (Queue.maxsize (result_queue (fst s))) rest in
  let s2 := after_change e (result_status r) (set_result_queue q (fst s), snd s) in
  exists o c t f shown wins,
    consume_result e s =
      (o, (set_fps c t f (fst s2),
           {| stdout := stdout (snd s2); windows := wins;
              calls := calls (snd s2) ++ shown |}))
    /\ ((o = Done tt /\ exists ov, shown = [CImshow window_title ov])
        \/ (o = Raised ZeroDivisionError /\ shown = [])).
Proof.
  destruct s as [d w]. intros H q s2. cbn [fst snd] in H, q, s2.
  unfold consume_result, bind at 1, self at 1, Queue.empty, Queue.qsize.
  cbn [fst snd]. rewrite H. cbn [List.length Nat.eqb negb].
  unfold get_result, bind at 1, bind at 1, self at 1, Queue.get. cbn [fst snd].
  rewrite H. unfold bind at 1, update at 1, ret at 1. cbn [fst snd].
  destruct r as [[annotated_frame status] labels].
  fold q. unfold bind at 1, self at 1. cbn [fst snd].
  assert (Hchange :
    (if negb (String.eqb status (current_status (set_result_queue q d)))
     then send_to_esp32 (io_change e) status ;;
          update (set_current_status status) ;;
          update (set_last_detection_time (clock_change e))
     else ret tt) (set_result_queue q d, w) = (Done tt, s2)).
  { subst s2. unfold after_change, result_status. cbn [fst snd].
    destruct (negb (String.eqb status (current_status (set_result_queue q d)))).
    - unfold bind at 1. rewrite send_to_esp32_eq. reflexivity.
    - reflexivity. }
  unfold bind at 1. rewrite Hchange.
  destruct (calculate_fps_runs (clock_fps e) s2) as (o & c & t & f & Hfps & Ho).
  unfold bind at 1. rewrite Hfps.
  destruct Ho as [-> | ->].
  - unfold bind at 1, self at 1. cbn [fst snd].
    match goal with |- context [imshow ?t ?ov ?st] =>
      destruct (imshow_runs t ov st) as (wins & Him); rewrite Him end.
    cbn [fst snd]. exists (Done tt), c, t, f. do 2 eexists.
    split; [reflexivity | left; split; [reflexivity | eexists; reflexivity]].
  - exists (Raised ZeroDivisionError), c, t, f, [], (windows (snd s2)).
    rewrite app_nil_r. split; [|right; auto].
    now destruct s2 as [d2 [out2 win2 calls2]].
Qed.

Lemma periodic_update_eq (e : MainEnv) (s : St) :
  periodic_update e s = (Done tt, after_periodic e s).
Proof.
  destruct s as [d w]. unfold periodic_update, after_periodic, bind at 1, self at 1.
  cbn [fst snd].
  destruct (Qgtb (clock_check e - last_detection_time d) 5); [|reflexivity].
  unfold bind. now rewrite send_to_esp32_eq.
Qed.

Lemma cleanup_eq (s : St) : cleanup s = (Done tt, after_cleanup s).
Proof.
  open_state s. destruct w as [out wins cs].
  unfold cleanup, after_cleanup, bind, print, update, self, ret, cap_release,
    ser_close, destroyAllWindows, bind, call, self, update, raise,
    World_print, World_call, World_destroyAllWindows, World_set_windows,
    World_call, serial_ready.
  cbn -[String.append].
  destruct cam as [[|]]; destruct port as [[[|] wr]|]; cbn;
    rewrite <- ?app_assoc; reflexivity.
Qed.

(** ** The workers in closed form *)

Lemma capture_body_some (dev : option Frame) (frame : Frame) (s : St) :
  cap_read (cap (fst s)) dev = Some frame ->
  capture_body dev s = (Done Continue, (after_capture frame (fst s), snd s)).
Proof.
  open_state s. cbn [fst snd cap]. intros H.
  unfold capture_body, after_capture, bind at 1, self at 1. cbn [fst snd cap].
  rewrite H. unfold put_frame, Queue.put, bind, self, update, ret. cbn.
  destruct (fcount mod FRAME_SKIP =? 0)%Z; cbn; [|reflexivity].
  destruct (Queue.full fq) eqn:Hfull; cbn; rewrite ?Hfull; reflexivity.
Qed.

Lemma capture_body_none (dev : option Frame) (s : St) :
  cap_read (cap (fst s)) dev = None ->
  capture_body dev s =
    (Done Break, (fst s, World_print "Error: Failed to capture frame" (snd s))).
Proof.
  destruct s as [d w]. cbn [fst snd]. intros H.
  unfold capture_body, bind at 1, self at 1. cbn [fst snd]. now rewrite H.
Qed.

Lemma process_body_eq (s : St) :
  process_body s = (Done Continue, (after_process (fst s), snd s)).
Proof.
  open_state s. destruct fq as [fmax [|frame rest]];
    unfold process_body, after_process, result_of, get_frame, put_result,
      Queue.get, Queue.put, Queue.empty, Queue.qsize,
      bind, self, update, ret; cbn; [reflexivity|].
  destruct (Queue.full rq) eqn:Hfull; cbn; rewrite ?Hfull; reflexivity.
Qed.

(** ** The control loop in closed form *)

Lemma consume_result_runs (e : MainEnv) (s : St) :
  exists o c t f shown wins,
    consume_result e s =
      (o, (set_fps c t f (fst (after_get e s)),
           {| stdout := stdout (snd (after_get e s)); windows := wins;
              calls := calls (snd (after_get e s)) ++ shown |}))
    /\ forallb is_imshow shown = true
    /\ (o = Done tt \/ (o = Raised ZeroDivisionError /\ shown = [])).
Proof.
  unfold after_get.
  destruct (Queue.items (result_queue (fst s))) as [|r rest] eqn:Hitems.
  - rewrite (consume_result_empty e s Hitems).
    destruct s as [d [out wins cs]]. open_detector d.
    exists (Done tt), fcnt, fstart, cfps, [], wins. cbn. rewrite app_nil_r. auto.
  - destruct (consume_result_head e s r rest Hitems)
      as (o & c & t & f & shown & wins & Heq & Ho).
    exists o, c, t, f, shown, wins. split; [exact Heq|].
    destruct Ho as [[-> [ov ->]] | [-> ->]]; auto.
Qed.

Lemma run_body_eq (e : MainEnv) (s : St) :
  run_body e s =
    match consume_result e s with
    | (Done _, sc) =>
        if quit_pressed (key e) then (Done Break, sc)
        else (Done Continue, after_periodic e sc)
    | (Raised x, sc) => (Raised x, sc)
    | (Blocked, sc) => (Blocked, sc)
    end.
Proof.
  unfold run_body, bind at 1.
  destruct (consume_result e s) as [[[]| |] sc]; try reflexivity.
  destruct (quit_pressed (key e)); [reflexivity|].
  unfold bind. now rewrite periodic_update_eq.
Qed.

(** A pass of the control loop continues, breaks on the quit key, or raises
    the division error of the FPS meter; it never waits on the queue. *)
Lemma run_body_outcome (e : MainEnv) (s : St) :
  fst (run_body e s) = Done Continue
  \/ fst (run_body e s) = Done Break
  \/ fst (run_body e s) = Raised ZeroDivisionError.
Proof.
  rewrite run_body_eq.
  destruct (consume_result_runs e s) as (o & c & t & f & shown & wins & -> & _ & Ho).
  destruct Ho as [-> | [-> _]]; [|auto].
  destruct (quit_pressed (key e)); auto.
Qed.

Lemma leave_loop_eq (o : Outcome Ctl) (s1 : St) :
  o <> Blocked ->
  (let '(o2, s2) := run_handlers o s1 in
   let '(o3, s3) := main_handlers o2 s2 in
   (status_of_outcome o3, s3)) = (Returned, shutdown o s1).
Proof.
  intros Hnb. unfold shutdown.
  destruct o as [c|x|]; [| |congruence].
  - cbn [run_handlers]. rewrite cleanup_eq. reflexivity.
  - destruct x; cbn [run_handlers]; unfold bind, print, raise; cbn [fst snd];
      rewrite cleanup_eq; reflexivity.
Qed.

Lemma run_iter_outcome (ev : MainEvent) (s : St) : fst (run_iter ev s) <> Blocked.
Proof.
  unfold run_iter, bind, self. destruct (running (fst s)); [|discriminate].
  destruct ev as [e|]; [|discriminate].
  destruct (run_body_outcome e s) as [H | [H | H]]; rewrite H; discriminate.
Qed.

Lemma step_main_eq (ev : MainEvent) (p : Pipeline) :
  main_status p = Looping ->
  step (AMain ev) p =
    let r := run_iter ev (state p) in
    {| state := if continues (fst r) then snd r else shutdown (fst r) (snd r);
       capture_alive := capture_alive p;
       process_alive := process_alive p;
       main_status := if continues (fst r) then Looping else Returned |}.
Proof.
  intros Hloop. unfold step. rewrite Hloop.
  pose proof (run_iter_outcome ev (state p)) as Hnb.
  destruct (run_iter ev (state p)) as [o s1]. cbn [fst snd] in *.
  destruct (continues o); [reflexivity|].
  pose proof (leave_loop_eq o s1 Hnb) as Hl.
  destruct (run_handlers o s1) as [o2 s2].
  destruct (main_handlers o2 s2) as [o3 s3].
  injection Hl as -> ->. reflexivity.
Qed.

(** ** The scheduling steps, by kind *)

Lemma step_view (a : Action) (p : Pipeline) : StepView a p (step a p).
Proof.
  destruct a as [dev| |ev].
  - destruct p as [s ca pa ms]. cbn [step capture_alive process_alive main_status state].
    destruct ca; [|now apply SvIdle].
    unfold capture_iter, bind at 1, self at 1.
    destruct (running (fst s)) eqn:Hrun; [|apply SvIdle; reflexivity].
    destruct (cap_read (cap (fst s)) dev) as [frame|] eqn:Hread.
    + rewrite (capture_body_some dev frame s Hread).
      now apply (SvCaptured _ _ _ dev frame).
    + rewrite (capture_body_none dev s Hread). now apply (SvReadFailed _ _ _ dev).
  - destruct p as [s ca pa ms]. cbn [step capture_alive process_alive main_status state].
    destruct pa; [|now apply SvIdle].
    unfold process_iter, bind at 1, self at 1.
    destruct (running (fst s)) eqn:Hrun; [|apply SvIdle; reflexivity].
    rewrite process_body_eq. now apply SvProcessed.
  - destruct (main_status p) eqn:Hms;
      try (apply SvIdle; unfold step, observed, observe; rewrite Hms; easy).
    rewrite (step_main_eq ev p Hms). cbv zeta.
    unfold run_iter, bind at 1 2 3 4 5, self at 1 2 3 4 5.
    destruct (running (fst (state p))) eqn:Hrun.
    + destruct ev as [e|].
      * destruct (run_body_outcome e (state p)) as [Ho | Ho].
        -- rewrite Ho. cbn [continues]. now apply (SvLooped _ _ _ e).
        -- assert (Hc : continues (fst (run_body e (state p))) = false)
             by (destruct Ho as [Ho|Ho]; now rewrite Ho).
           rewrite Hc. apply (SvLeft _ _ _ (Iter e) (fst (run_body e (state p)))
                                (snd (run_body e (state p)))); auto.
           right; right. exists e. repeat split; auto.
           now destruct (run_body e (state p)).
      * unfold raise. cbn [fst snd continues].
        apply (SvLeft _ _ _ CtrlC (Raised KeyboardInterrupt) (state p)); auto.
        right; left. auto.
    + unfold ret. cbn [fst snd continues].
      apply (SvLeft _ _ _ ev (Done Break) (state p)); auto.
      left. auto.
Qed.

(** ** Reporting: sends against the reporter *)

Lemma sends_of_app (a b : list Call) : sends_of (a ++ b) = sends_of a ++ sends_of b.
Proof.
  induction a as [|c a IH]; [reflexivity|].
  destruct c; cbn; now rewrite ?IH.
Qed.

Lemma sends_of_imshow (cs : list Call) :
  forallb is_imshow cs = true -> sends_of cs = [].
Proof.
  induction cs as [|c cs IH]; [reflexivity|].
  destruct c; cbn; try discriminate. exact IH.
Qed.

Lemma sends_shutdown (o : Outcome Ctl) (s : St) :
  sends_of (calls (snd (shutdown o s))) = sends_of (calls (snd s)).
Proof.
  unfold shutdown, after_cleanup.
  destruct o as [c|x|]; try destruct x; cbn;
    rewrite !sends_of_app;
    destruct (opened (cap (fst s))); destruct (serial_ready (ser (fst s)));
    cbn; now rewrite ?app_nil_r.
Qed.

Lemma after_get_report (e : MainEnv) (s : St) (ob : Reporter.Obs) :
  Reporter.consumed ob =
    option_map result_status (hd_error (Queue.items (result_queue (fst s)))) ->
  Reporter.change_time ob = clock_change e ->
  let st := reporter_state (fst s) in
  reporter_state (fst (after_get e s)) = Reporter.after_result st ob
  /\ sends_of (calls (snd (after_get e s))) =
       sends_of (calls (snd s)) ++
       (if Reporter.is_transition st ob
        then [Reporter.last_status (Reporter.after_result st ob)] else []).
Proof.
  intros Hc Ht st. subst st.
  unfold after_get, Reporter.after_result, Reporter.is_transition.
  rewrite Hc.
  destruct (Queue.items (result_queue (fst s))) as [|r rest]; cbn [hd_error option_map].
  - now rewrite app_nil_r.
  - unfold after_change. cbn [fst snd reporter_state Reporter.last_status].
    change (current_status (set_result_queue _ (fst s))) with (current_status (fst s)).
    destruct (negb (String.eqb (result_status r) (current_status (fst s)))).
    + cbn. rewrite sends_of_app, Ht. auto.
    + cbn. now rewrite app_nil_r.
Qed.

Lemma after_periodic_report (e : MainEnv) (s : St) :
  let elapsed := Qgtb (clock_check e - last_detection_time (fst s)) 5 in
  reporter_state (fst (after_periodic e s)) =
    (if elapsed
     then {| Reporter.last_status := current_status (fst s);
             Reporter.last_report_time := clock_refresh e |}
     else reporter_state (fst s))
  /\ sends_of (calls (snd (after_periodic e s))) =
       sends_of (calls (snd s)) ++ (if elapsed then [current_status (fst s)] else []).
Proof.
  unfold after_periodic.
  destruct (Qgtb (clock_check e - last_detection_time (fst s)) 5); cbn.
  - now rewrite sends_of_app.
  - now rewrite app_nil_r.
Qed.

(** One pass of the control loop sends what the reporter sends. *)
Lemma run_body_report (e : MainEnv) (s : St) (ob : Reporter.Obs) :
  Reporter.consumed ob =
    option_map result_status (hd_error (Queue.items (result_queue (fst s)))) ->
  Reporter.change_time ob = clock_change e ->
  Reporter.checked ob = continues (fst (run_body e s)) ->
  Reporter.check_time ob = clock_check e ->
  Reporter.refresh_time ob = clock_refresh e ->
  let st := reporter_state (fst s) in
  sends_of (calls (snd (snd (run_body e s)))) =
    sends_of (calls (snd s)) ++ Reporter.pass_sends st ob
  /\ (fst (run_body e s) = Done Continue ->
      reporter_state (fst (snd (run_body e s))) = Reporter.after_pass st ob).
Proof.
  intros Hc Ht Hk Hck Hrf st.
  destruct (after_get_report e s ob Hc Ht) as [Hst Hsends]. fold st in Hst, Hsends.
  unfold Reporter.pass_sends, Reporter.after_pass, Reporter.window_elapsed.
  rewrite Hk, Hck, Hrf. clear Hk.
  rewrite run_body_eq.
  destruct (consume_result_runs e s)
    as (o & c & t & f & shown & wins & -> & Hshown & Ho).
  apply sends_of_imshow in Hshown.
  destruct Ho as [-> | [-> ->]].
  - destruct (quit_pressed (key e)); cbn [fst snd continues andb].
    + cbn. rewrite sends_of_app, Hshown, Hsends, !app_nil_r.
      split; [reflexivity | discriminate].
    + match goal with |- context [after_periodic e ?x] =>
        destruct (after_periodic_report e x) as [Hp1 Hp2] end.
      cbn [fst snd] in Hp1, Hp2.
      change (last_detection_time (set_fps c t f (fst (after_get e s))))
        with (Reporter.last_report_time (reporter_state (fst (after_get e s)))) in Hp1, Hp2.
      change (current_status (set_fps c t f (fst (after_get e s))))
        with (Reporter.last_status (reporter_state (fst (after_get e s)))) in Hp1, Hp2.
      change (reporter_state (set_fps c t f (fst (after_get e s))))
        with (reporter_state (fst (after_get e s))) in Hp1.
      rewrite Hst in Hp1, Hp2.
      rewrite Hp2. cbn [calls]. rewrite sends_of_app, Hshown, Hsends, app_nil_r, <- app_assoc.
      split; [reflexivity|]. intros _. rewrite Hp1.
      now destruct (Qgtb _ 5).
  - cbn. rewrite sends_of_app, Hsends, !app_nil_r.
    split; [reflexivity | discriminate].
Qed.
Lemma run_iter_running (e : MainEnv) (s : St) :
  running (fst s) = true -> run_iter (Iter e) s = run_body e s.
Proof. intros H. unfold run_iter, bind, self. cbn. now rewrite H. Qed.

Lemma reporter_count (st : Reporter.state) (obs : list Reporter.Obs) :
  List.length (Reporter.run st obs) =
    (Reporter.transitions st obs + Reporter.elapsed_windows st obs)%nat.
Proof.
  revert st; induction obs as [|o obs IH]; intros st; [reflexivity|].
  cbn [Reporter.run Reporter.transitions Reporter.elapsed_windows].
  rewrite length_app, IH. unfold Reporter.pass_sends. rewrite length_app.
  destruct (Reporter.is_transition st o); destruct (Reporter.window_elapsed st o);
    cbn [List.length]; lia.
Qed.

(** One scheduling step sends what the reporter sends on what the step
    observes, and leaves the detector in the reporter's state. *)
Lemma step_report (a : Action) (p : Pipeline) :
  sends (step a p) =
    sends p ++ Reporter.run (reporter_state (detector p)) (observed a p)
  /\ (main_status (step a p) = Looping ->
      reporter_state (detector (step a p)) =
        fold_left Reporter.after_pass (observed a p) (reporter_state (detector p))).
Proof.
  unfold sends, world, detector.
  destruct (step_view a p) as
    [Hs Hm Hobs | dev frame Ha Hal Hrun Hread Hs Hal' Hm | dev Ha Hal Hrun Hread Hs Hal' Hm
     | Ha Hal Hrun Hs Hm | e Ha Hloop Hrun Ho Hs Hm | ev o s1 Ha Hloop Hleft Hs Hm].
  - rewrite Hs, Hobs. cbn. now rewrite app_nil_r.
  - rewrite Hs, Ha. cbn. now rewrite app_nil_r.
  - rewrite Hs, Ha. cbn. now rewrite app_nil_r.
  - rewrite Hs, Ha. cbn. rewrite app_nil_r. split; [reflexivity|]. intros _.
    unfold after_process, detector.
    destruct (Queue.items (frame_queue (fst (state p)))); reflexivity.
  - rewrite Hs, Ha. unfold observed, observe. rewrite Hloop.
    unfold detector in *. rewrite Hrun, (run_iter_running e _ Hrun).
    cbn [Reporter.run fold_left]. rewrite app_nil_r.
    split; [|intros _]; apply run_body_report; auto.
  - rewrite Hm, Hs, sends_shutdown, Ha. split; [|discriminate].
    unfold observed, observe. rewrite Hloop. unfold detector.
    destruct Hleft as [(-> & Hrun & ->) | [(-> & Hrun & -> & ->) | (e & -> & Hrun & Hbody & Ho)]].
    + rewrite Hrun. destruct ev; cbn; now rewrite app_nil_r.
    + cbn. now rewrite app_nil_r.
    + rewrite Hrun, (run_iter_running e _ Hrun).
      cbn [Reporter.run]. rewrite app_nil_r.
      replace s1 with (snd (run_body e (state p))) by now rewrite Hbody.
      apply run_body_report; reflexivity.
Qed.

(** Once the main thread has left its loop nothing is observed or sent. *)
Lemma quiet_after_loop (acts : list Action) (p : Pipeline) :
  main_status p <> Looping ->
  observations acts p = [] /\ sends (run_schedule acts p) = sends p.
Proof.
  revert p; induction acts as [|a acts IH]; intros p Hp; [split; reflexivity|].
  cbn [observations run_schedule fold_left].
  fold (run_schedule acts (step a p)). fold (observed a p).
  destruct (step_report a p) as [Hsend _].
  assert (Hobs : observed a p = []).
  { destruct a as [| |ev]; try reflexivity. unfold observed, observe.
    destruct (main_status p); congruence || reflexivity. }
  assert (Hm : main_status (step a p) <> Looping).
  { destruct (step_view a p) as
      [Hs Hm Hobs' | dev frame Ha Hal Hrun Hread Hs Hal' Hm | dev Ha Hal Hrun Hread Hs Hal' Hm
       | Ha Hal Hrun Hs Hm | e Ha Hloop Hrun Ho Hs Hm | ev o s1 Ha Hloop Hleft Hs Hm];
      congruence. }
  destruct (IH (step a p) Hm) as [-> ->].
  rewrite Hobs in *. cbn in Hsend. rewrite app_nil_r in Hsend. now rewrite Hsend.
Qed.

(** C2: along every schedule, [send_to_esp32] is invoked as the reporter of
    the specification prescribes on the passes of the control loop: once
    for each consumed result whose status differs from the last reported
    one, once for each periodic check that finds more than 5 seconds since
    the last report, and never otherwise. *)
Theorem sends_once_per_transition_and_window (acts : list Action) (p : Pipeline) :
  let st := reporter_state (detector p) in
  let obs := observations acts p in
  sends (run_schedule acts p) = sends p ++ Reporter.run st obs
  /\ List.length (sends (run_schedule acts p)) =
       (List.length (sends p)
        + Reporter.transitions st obs + Reporter.elapsed_windows st obs)%nat.
Proof.
  cbv zeta.
  assert (H : sends (run_schedule acts p) =
              sends p ++ Reporter.run (reporter_state (detector p)) (observations acts p)).
  { revert p; induction acts as [|a acts IH]; intros p.
    - cbn. now rewrite app_nil_r.
    - cbn [observations run_schedule fold_left].
      fold (run_schedule acts (step a p)). fold (observed a p).
      destruct (step_report a p) as [Hsend Hst].
      assert (Hone : forall st, Reporter.run st (observed a p ++ observations acts (step a p)) =
                Reporter.run st (observed a p) ++
                Reporter.run (fold_left Reporter.after_pass (observed a p) st)
                  (observations acts (step a p))).
      { intros st. destruct (observed a p) as [|o [|o' l]] eqn:Hobs.
        - reflexivity.
        - cbn. now rewrite app_nil_r.
        - exfalso. destruct a as [| |ev]; try discriminate.
          unfold observed in Hobs. destruct (observe ev p); discriminate. }
      rewrite Hone, app_assoc, <- Hsend.
      destruct (main_status (step a p)) eqn:Hm;
        try (destruct (quiet_after_loop acts (step a p)) as [-> ->];
             [congruence | cbn; now rewrite app_nil_r]).
      rewrite IH, Hst by reflexivity. reflexivity. }
  split; [exact H|]. rewrite H, length_app, reporter_count. lia.
Qed.
(** ** What reaches the wire *)

Section WireStatuses.

Variable P : string -> Prop.
Hypothesis decided_P : forall status, decided status -> P status.

Lemma wire_grows_refl (s : St) : wire_grows P s s.
Proof. exists []. now rewrite app_nil_r. Qed.

Lemma wire_grows_trans (s1 s2 s3 : St) :
  wire_grows P s1 s2 -> wire_grows P s2 s3 -> wire_grows P s1 s3.
Proof.
  intros (n1 & H1 & F1) (n2 & H2 & F2). exists (n1 ++ n2).
  rewrite H2, H1, app_assoc. split; [reflexivity | now apply Forall_app].
Qed.

Lemma wire_grows_same (s s' : St) :
  ser (fst s') = ser (fst s) -> wire_grows P s s'.
Proof.
  intros H. exists []. unfold wire_of. now rewrite H, app_nil_r.
Qed.

Lemma after_send_wire (io : SerialIO) (status : string) (s : St) :
  P status -> wire_grows P s (after_send io status s).
Proof.
  intros HP. unfold wire_grows, after_send, wire_of, send_port. cbn.
  destruct (ser (fst s)) as [[[|] wr]|]; cbn.
  - destruct io; cbn.
    + exists [(status ++ nl)%string]. split; [reflexivity|].
      constructor; [now exists status | constructor].
    + exists []. now rewrite app_nil_r.
    + exists [(status ++ nl)%string]. split; [reflexivity|].
      constructor; [now exists status | constructor].
  - exists []. now rewrite app_nil_r.
  - now exists [].
Qed.

Lemma after_get_wire (e : MainEnv) (s : St) :
  status_inv P s ->
  status_inv P (after_get e s) /\ wire_grows P s (after_get e s).
Proof.
  intros [Hq Hc]. unfold after_get.
  destruct (Queue.items (result_queue (fst s))) as [|r rest] eqn:Hitems.
  - split; [split; [now rewrite Hitems | exact Hc] | apply wire_grows_refl].
  - inversion Hq as [|r' rest' Hr Hrest]; subst.
    set (s0 := (set_result_queue _ (fst s), snd s)).
    assert (Hg0 : wire_grows P s s0) by now apply wire_grows_same.
    unfold after_change.
    destruct (negb (String.eqb (result_status r) (current_status (fst s0)))).
    + split; [split; cbn; auto|].
      eapply wire_grows_trans; [exact Hg0|].
      eapply wire_grows_trans;
        [apply (after_send_wire (io_change e) (result_status r) s0); auto|].
      now apply wire_grows_same.
    + split; [split; cbn; auto | exact Hg0].
Qed.

Lemma after_periodic_wire (e : MainEnv) (s : St) :
  status_inv P s ->
  status_inv P (after_periodic e s) /\ wire_grows P s (after_periodic e s).
Proof.
  intros [Hq Hc]. unfold after_periodic.
  destruct (Qgtb (clock_check e - last_detection_time (fst s)) 5).
  - split; [split; cbn; auto|].
    eapply wire_grows_trans;
      [apply (after_send_wire (io_refresh e) (current_status (fst s)) s); exact Hc|].
    now apply wire_grows_same.
  - split; [now split | apply wire_grows_refl].
Qed.

Lemma run_body_wire (e : MainEnv) (s : St) :
  status_inv P s ->
  status_inv P (snd (run_body e s)) /\ wire_grows P s (snd (run_body e s)).
Proof.
  intros Hinv. rewrite run_body_eq.
  destruct (consume_result_runs e s) as (o & c & t & f & shown & wins & -> & _ & Ho).
  destruct (after_get_wire e s Hinv) as [[Hq Hc] Hg].
  set (s1 := (set_fps c t f (fst (after_get e s)),
              {| stdout := stdout (snd (after_get e s)); windows := wins;
                 calls := calls (snd (after_get e s)) ++ shown |})).
  assert (Hinv1 : status_inv P s1) by (split; assumption).
  assert (Hg1 : wire_grows P s s1).
  { eapply wire_grows_trans; [exact Hg | now apply wire_grows_same]. }
  destruct Ho as [-> | [-> ->]]; [|now split].
  destruct (quit_pressed (key e)); [now split|].
  cbn [snd]. destruct (after_periodic_wire e s1 Hinv1) as [Hinv2 Hg2].
  split; [exact Hinv2 | eapply wire_grows_trans; eauto].
Qed.

Lemma shutdown_wire (o : Outcome Ctl) (s : St) :
  status_inv P s -> status_inv P (shutdown o s) /\ wire_grows P s (shutdown o s).
Proof.
  intros [Hq Hc].
  assert (Hw : wire_of (fst (shutdown o s)) = wire_of (fst s)).
  { unfold shutdown, after_cleanup, wire_of.
    destruct o as [c|x|]; try destruct x; cbn;
      destruct (ser (fst s)) as [[[|] wr]|]; reflexivity. }
  split.
  - unfold shutdown. destruct o as [c|x|]; try destruct x; split; assumption.
  - exists []. now rewrite Hw, app_nil_r.
Qed.

Lemma access_status_decided (labels : list string) : decided (access_status labels).
Proof.
  unfold decided, access_status.
  destruct (has_helmet labels && has_vest labels); auto.
Qed.

Lemma step_wire (a : Action) (p : Pipeline) :
  status_inv P (state p) ->
  status_inv P (state (step a p)) /\ wire_grows P (state p) (state (step a p)).
Proof.
  intros Hinv. pose proof Hinv as [Hq Hc].
  destruct (step_view a p) as
    [Hs Hm Hobs | dev frame Ha Hal Hrun Hread Hs Hal' Hm | dev Ha Hal Hrun Hread Hs Hal' Hm
     | Ha Hal Hrun Hs Hm | e Ha Hloop Hrun Ho Hs Hm | ev o s1 Ha Hloop Hleft Hs Hm];
    rewrite Hs.
  - split; [exact Hinv | apply wire_grows_refl].
  - split; [now split | now apply wire_grows_same].
  - split; [now split | now apply wire_grows_same].
  - unfold after_process, detector, world.
    destruct (Queue.items (frame_queue (fst (state p)))) as [|frame rest].
    + destruct (state p); split; [now split | now apply wire_grows_same].
    + split; [|now apply wire_grows_same].
      split; [|exact Hc]. cbn.
      destruct (Queue.full (result_queue (fst (state p)))); cbn; [exact Hq|].
      apply Forall_app. split; [exact Hq|].
      constructor; [apply access_status_decided | constructor].
  - now apply run_body_wire.
  - destruct Hleft as [(-> & _) | [(-> & _) | (e & _ & _ & Hbody & _)]].
    + now apply shutdown_wire.
    + now apply shutdown_wire.
    + replace s1 with (snd (run_body e (state p))) by now rewrite Hbody.
      destruct (run_body_wire e (state p) Hinv) as [Hinv1 Hg1].
      destruct (shutdown_wire o _ Hinv1) as [Hinv2 Hg2].
      split; [exact Hinv2 | eapply wire_grows_trans; eauto].
Qed.

Lemma run_schedule_wire (acts : list Action) (p : Pipeline) :
  status_inv P (state p) ->
  status_inv P (state (run_schedule acts p))
  /\ wire_grows P (state p) (state (run_schedule acts p)).
Proof.
  revert p; induction acts as [|a acts IH]; intros p Hinv.
  - split; [exact Hinv | apply wire_grows_refl].
  - cbn [run_schedule fold_left]. fold (run_schedule acts (step a p)).
    destruct (step_wire a p Hinv) as [Hinv1 Hg1].
    destruct (IH _ Hinv1) as [Hinv2 Hg2].
    split; [exact Hinv2 | eapply wire_grows_trans; eauto].
Qed.

End WireStatuses.
(** ** Start-up *)

Lemma boot_started (ie : InitEnv) (p0 : Pipeline) :
  boot ie = Started p0 ->
  exists m w,
    ie_yolo ie = inl m /\ ie_camera_opens ie = true
    /\ calls w = []
    /\ p0 = start (initial_detector m (ie_serial ie)
                     (ie_clock_detection ie) (ie_clock_fps ie)) w.
Proof.
  unfold boot, init. destruct (ie_yolo ie) as [m|msg]; [|discriminate].
  destruct (ie_camera_opens ie); cbn [negb]; [|discriminate].
  destruct (ie_serial ie) as [|msg]; intros H; injection H as <-;
    eexists; eexists; (split; [reflexivity|]); (split; [reflexivity|]);
    (split; [|reflexivity]); reflexivity.
Qed.

(** C3 (as the code has it): every message on the wire is a status line
    whose status is ACCESS_GRANTED, ACCESS_DENIED or CHECKING; once the
    current status has left CHECKING, every later message carries
    ACCESS_GRANTED or ACCESS_DENIED. *)
Theorem wire_statuses (ie : InitEnv) (p0 : Pipeline) (acts1 acts2 : list Action) :
  boot ie = Started p0 ->
  let p1 := run_schedule acts1 p0 in
  let p2 := run_schedule acts2 p1 in
  Forall (wire_message reportable) (wire p2)
  /\ (current_status (detector p1) <> CHECKING ->
      exists new, wire p2 = wire p1 ++ new /\ Forall (wire_message decided) new).
Proof.
  intros Hboot p1 p2.
  destruct (boot_started ie p0 Hboot) as (m & w & _ & _ & _ & ->).
  set (p0 := start _ w) in *.
  assert (Hinv0 : status_inv reportable (state p0)).
  { split; [constructor | now right]. }
  assert (Hw0 : wire p0 = []).
  { unfold wire, wire_of. cbn. now destruct (ie_serial ie). }
  assert (Hr : forall status, decided status -> reportable status) by (now left).
  destruct (run_schedule_wire reportable Hr acts1 p0 Hinv0) as [Hinv1 (n1 & Hg1 & F1)].
  fold p1 in Hinv1, Hg1.
  destruct (run_schedule_wire reportable Hr acts2 p1 Hinv1) as [Hinv2 (n2 & Hg2 & F2)].
  fold p2 in Hinv2, Hg2.
  split.
  - unfold wire, detector in *. rewrite Hg2, Hg1, Hw0.
    cbn. now apply Forall_app.
  - intros Hne.
    assert (Hinv1' : status_inv decided (state p1)).
    { destruct Hinv1 as [Hq [Hd | Hc]]; [now split | contradiction]. }
    destruct (run_schedule_wire decided (fun _ H => H) acts2 p1 Hinv1')
      as [_ (n & Hg & F)].
    now exists n.
Qed.

(** C3 (as stated) fails: with the port open, a first periodic check more
    than 5 seconds after start-up, no result consumed yet, writes
    CHECKING to the wire. *)
Lemma refresh_writes_checking :
  exists p0, boot (demo_init PortOpens) = Started p0
             /\ wire (run_schedule [AMain (Iter (demo_env no_key 6))] p0)
                = [(CHECKING ++ nl)%string].
Proof. eexists. split; reflexivity. Qed.

Lemma wire_statuses_witness :
  exists p0, boot (demo_init PortOpens) = Started p0
    /\ let p1 := run_schedule [ACapture (Some 0%nat); AProcess;
                               AMain (Iter (demo_env no_key 1))] p0 in
       let p2 := run_schedule [AMain (Iter (demo_env no_key 7))] p1 in
       Forall (wire_message reportable) (wire p2)
       /\ (current_status (detector p1) <> CHECKING ->
           exists new, wire p2 = wire p1 ++ new
                       /\ Forall (wire_message decided) new).
Proof.
  eexists. split; [reflexivity|].
  exact (wire_statuses (demo_init PortOpens) _
           [ACapture (Some 0%nat); AProcess; AMain (Iter (demo_env no_key 1))]
           [AMain (Iter (demo_env no_key 7))] eq_refl).
Defined.
(** ** The capture stage *)

Lemma step_capture_eq (dev : option Frame) (p : Pipeline) :
  capture_alive p = true ->
  running (detector p) = true ->
  step (ACapture dev) p =
    match cap_read (cap (detector p)) dev with
    | Some frame =>
        {| state := (after_capture frame (detector p), world p);
           capture_alive := true;
           process_alive := process_alive p;
           main_status := main_status p |}
    | None =>
        {| state := (detector p, World_print "Error: Failed to capture frame" (world p));
           capture_alive := false;
           process_alive := process_alive p;
           main_status := main_status p |}
    end.
Proof.
  intros Hal Hrun. unfold detector, world in *.
  cbn [step]. rewrite Hal. unfold capture_iter, bind at 1, self at 1. rewrite Hrun.
  destruct (cap_read (cap (fst (state p))) dev) as [frame|] eqn:Hread.
  - now rewrite (capture_body_some dev frame _ Hread).
  - now rewrite (capture_body_none dev _ Hread).
Qed.

(** C4 (as the code has it): a read failure ends the capture stage and
    nothing else: the detector, its running flag included, is unchanged, the
    other two threads are as they were, the inference worker's next pass
    continues, and the control loop breaks only on the quit key. *)
Theorem read_failure_ends_capture_only (dev : option Frame) (p : Pipeline) :
  capture_alive p = true ->
  running (detector p) = true ->
  cap_read (cap (detector p)) dev = None ->
  let p' := step (ACapture dev) p in
  capture_alive p' = false
  /\ detector p' = detector p
  /\ running (detector p') = true
  /\ world p' = World_print "Error: Failed to capture frame" (world p)
  /\ process_alive p' = process_alive p
  /\ main_status p' = main_status p
  /\ fst (process_iter (state p')) = Done Continue
  /\ (forall e, fst (run_iter (Iter e) (state p')) = Done Break ->
                quit_pressed (key e) = true).
Proof.
  intros Hal Hrun Hread p'. subst p'.
  rewrite (step_capture_eq dev p Hal Hrun), Hread.
  unfold detector, world. cbn [state fst snd capture_alive process_alive main_status].
  repeat split; auto.
  - unfold process_iter, bind at 1, self at 1. cbn [fst]. unfold detector in Hrun.
    rewrite Hrun. now rewrite process_body_eq.
  - intros e. unfold detector in Hrun. rewrite run_iter_running by exact Hrun.
    rewrite run_body_eq.
    match goal with |- context [consume_result e ?s] =>
      destruct (consume_result_runs e s) as (o & c & t & f & shown & wins & -> & _ & Ho)
    end.
    destruct Ho as [-> | [-> ->]]; [|discriminate].
    destruct (quit_pressed (key e)); [reflexivity | discriminate].
Qed.

(** C4 (as stated) fails: after a failed read the running flag is still
    true, and the inference worker and the control loop go on. *)
Lemma read_failure_keeps_running :
  exists p0, boot (demo_init PortOpens) = Started p0
    /\ let p := step (ACapture None) p0 in
       capture_alive p = false
       /\ running (detector p) = true
       /\ let p' := run_schedule [AProcess; AMain (Iter (demo_env no_key 1))] p in
          running (detector p') = true
          /\ process_alive p' = true
          /\ main_status p' = Looping.
Proof. eexists. split; [reflexivity|]. cbv zeta. repeat split; reflexivity. Qed.

Lemma read_failure_ends_capture_only_witness :
  boot (demo_init PortOpens) = Started (demo_pipeline PortOpens)
  /\ let p0 := demo_pipeline PortOpens in
     let p' := step (ACapture None) p0 in
     capture_alive p' = false
     /\ detector p' = detector p0
     /\ running (detector p') = true
     /\ world p' = World_print "Error: Failed to capture frame" (world p0)
     /\ process_alive p' = process_alive p0
     /\ main_status p' = main_status p0
     /\ fst (process_iter (state p')) = Done Continue
     /\ (forall e, fst (run_iter (Iter e) (state p')) = Done Break ->
                   quit_pressed (key e) = true).
Proof.
  split; [reflexivity|].
  exact (read_failure_ends_capture_only None (demo_pipeline PortOpens)
           eq_refl eq_refl eq_refl).
Defined.
(** ** What the control loop leaves alone *)

Lemma run_body_preserves {A : Type} (f : Detector -> A) :
  (forall d q, f (set_result_queue q d) = f d) ->
  (forall d x, f (set_ser x d) = f d) ->
  (forall d x, f (set_current_status x d) = f d) ->
  (forall d x, f (set_last_detection_time x d) = f d) ->
  (forall d c t g, f (set_fps c t g d) = f d) ->
  forall e s, f (fst (snd (run_body e s))) = f (fst s).
Proof.
  intros Hq Hser Hcs Hldt Hfps e s.
  assert (Hget : f (fst (after_get e s)) = f (fst s)).
  { unfold after_get. destruct (Queue.items (result_queue (fst s))); [reflexivity|].
    unfold after_change. cbn [fst snd].
    match goal with |- context [negb ?b] => destruct (negb b) end; cbn [fst snd].
    - unfold after_send. cbn [fst snd]. now rewrite Hldt, Hcs, Hser, Hq.
    - apply Hq. }
  rewrite run_body_eq.
  destruct (consume_result_runs e s) as (o & c & t & f' & shown & wins & -> & _ & Ho).
  destruct Ho as [-> | [-> ->]]; cbn [fst snd]; [|now rewrite Hfps].
  destruct (quit_pressed (key e)); cbn [fst snd]; [now rewrite Hfps|].
  unfold after_periodic. cbn [fst snd].
  match goal with |- context [Qgtb ?a ?b] => destruct (Qgtb a b) end; cbn [fst snd].
  - unfold after_send. cbn [fst snd]. now rewrite Hldt, Hser, Hfps.
  - now rewrite Hfps.
Qed.

Lemma shutdown_preserves {A : Type} (f : Detector -> A) :
  (forall d x, f (set_ser x d) = f d) ->
  (forall d x, f (set_cap x d) = f d) ->
  (forall d x, f (set_running x d) = f d) ->
  forall o s, f (fst (shutdown o s)) = f (fst s).
Proof.
  intros Hser Hcap Hrun o s. unfold shutdown, after_cleanup.
  destruct o as [c|x|]; try destruct x; cbn [fst snd]; now rewrite Hser, Hcap, Hrun.
Qed.

(** A step of the main thread leaves alone what [f] reads. *)
Lemma main_step_preserves {A : Type} (f : Detector -> A) (ev : MainEvent) (p : Pipeline) :
  (forall d q, f (set_result_queue q d) = f d) ->
  (forall d x, f (set_ser x d) = f d) ->
  (forall d x, f (set_current_status x d) = f d) ->
  (forall d x, f (set_last_detection_time x d) = f d) ->
  (forall d c t g, f (set_fps c t g d) = f d) ->
  (forall d x, f (set_cap x d) = f d) ->
  (forall d x, f (set_running x d) = f d) ->
  f (detector (step (AMain ev) p)) = f (detector p).
Proof.
  intros Hq Hser Hcs Hldt Hfps Hcap Hrun. unfold detector.
  destruct (step_view (AMain ev) p) as
    [Hs Hm Hobs | dev frame Ha Hal Hr Hread Hs Hal' Hm | dev Ha Hal Hr Hread Hs Hal' Hm
     | Ha Hal Hr Hs Hm | e Ha Hloop Hr Ho Hs Hm | ev' o s1 Ha Hloop Hleft Hs Hm];
    try discriminate; rewrite Hs.
  - reflexivity.
  - now apply run_body_preserves.
  - rewrite shutdown_preserves by assumption.
    destruct Hleft as [(-> & _) | [(-> & _) | (e & _ & _ & Hbody & _)]]; auto.
    replace s1 with (snd (run_body e (state p))) by now rewrite Hbody.
    now apply run_body_preserves.
Qed.

(** ** The frame queue *)

Lemma after_capture_inv (frame : Frame) (d : Detector) :
  capture_inv d -> capture_inv (after_capture frame d).
Proof.
  intros (Hmax & Hlen & Hpos & Hzero). unfold capture_inv, after_capture. cbn.
  destruct ((frame_count d mod FRAME_SKIP =? 0)%Z && negb (Queue.full (frame_queue d)))
    eqn:Hfw; cbn.
  - apply andb_prop in Hfw as [_ Hnf]. apply negb_true_iff in Hnf.
    unfold Queue.full, Queue.qsize in Hnf. rewrite Hmax in Hnf. cbn in Hnf.
    rewrite length_app. cbn.
    repeat split; auto; try lia.
    destruct (Queue.items (frame_queue d)) as [|a [|b l]]; cbn in *; lia || discriminate.
  - repeat split; auto; lia.
Qed.

Lemma after_process_inv (d : Detector) : capture_inv d -> capture_inv (after_process d).
Proof.
  intros (Hmax & Hlen & Hpos & Hzero). unfold capture_inv, after_process.
  destruct (Queue.items (frame_queue d)) as [|frame rest] eqn:Hitems.
  - rewrite Hitems. auto.
  - cbn in *. repeat split; auto; try lia.
    intros H0. specialize (Hzero H0). discriminate.
Qed.

Lemma step_capture_inv (a : Action) (p : Pipeline) :
  capture_inv (detector p) -> capture_inv (detector (step a p)).
Proof.
  intros Hinv.
  destruct a as [dev| |ev].
  - unfold detector in *.
    destruct (step_view (ACapture dev) p) as
      [Hs Hm Hobs | dev' frame Ha Hal Hr Hread Hs Hal' Hm | dev' Ha Hal Hr Hread Hs Hal' Hm
       | Ha Hal Hr Hs Hm | e Ha Hloop Hr Ho Hs Hm | ev' o s1 Ha Hloop Hleft Hs Hm];
      try discriminate; rewrite Hs; auto.
    now apply after_capture_inv.
  - unfold detector in *.
    destruct (step_view AProcess p) as
      [Hs Hm Hobs | dev' frame Ha Hal Hr Hread Hs Hal' Hm | dev' Ha Hal Hr Hread Hs Hal' Hm
       | Ha Hal Hr Hs Hm | e Ha Hloop Hr Ho Hs Hm | ev' o s1 Ha Hloop Hleft Hs Hm];
      try discriminate; rewrite Hs; auto.
    now apply after_process_inv.
  - unfold capture_inv in *.
    rewrite (main_step_preserves frame_queue ev p) by reflexivity.
    rewrite (main_step_preserves frame_count ev p) by reflexivity.
    exact Hinv.
Qed.

Lemma run_schedule_capture_inv (acts : list Action) (p : Pipeline) :
  capture_inv (detector p) -> capture_inv (detector (run_schedule acts p)).
Proof.
  revert p; induction acts as [|a acts IH]; intros p Hinv; [exact Hinv|].
  cbn [run_schedule fold_left]. apply IH. now apply step_capture_inv.
Qed.

Lemma boot_capture_inv (ie : InitEnv) (p0 : Pipeline) :
  boot ie = Started p0 -> capture_inv (detector p0).
Proof.
  intros Hboot. destruct (boot_started ie p0 Hboot) as (m & w & _ & _ & _ & ->).
  unfold capture_inv. cbn. repeat split; auto; lia.
Qed.

(** C5: a capture pass that reads a frame never waits on the frame queue
    and goes on to the next frame; the frame is forwarded only at a count
    that is a multiple of FRAME_SKIP, and on a full queue (which holds 2
    frames) the queue is left as it is and the frame is dropped. *)
Theorem capture_never_blocks (ie : InitEnv) (p0 : Pipeline) (acts : list Action)
    (dev : option Frame) (frame : Frame) :
  boot ie = Started p0 ->
  let p := run_schedule acts p0 in
  capture_alive p = true ->
  running (detector p) = true ->
  cap_read (cap (detector p)) dev = Some frame ->
  let d := detector p in
  let p' := step (ACapture dev) p in
  capture_iter dev (state p) = (Done Continue, (detector p', world p))
  /\ capture_alive p' = true
  /\ frame_count (detector p') = (frame_count d + 1)%Z
  /\ ((frame_count d mod FRAME_SKIP)%Z <> 0%Z ->
      frame_queue (detector p') = frame_queue d)
  /\ (Queue.full (frame_queue d) = true ->
      frame_queue (detector p') = frame_queue d)
  /\ ((frame_count d mod FRAME_SKIP)%Z = 0%Z -> Queue.full (frame_queue d) = false ->
      forwarded frame d (detector p'))
  /\ Queue.maxsize (frame_queue d) = 2%nat
  /\ (Queue.full (frame_queue d) = true <->
      List.length (Queue.items (frame_queue d)) = 2%nat).
Proof.
  intros Hboot p Hal Hrun Hread d p'.
  pose proof (run_schedule_capture_inv acts p0 (boot_capture_inv ie p0 Hboot))
    as (Hmax & Hlen & Hpos & Hzero).
  fold p in Hmax, Hlen, Hpos, Hzero. fold d in Hmax, Hlen, Hpos, Hzero.
  subst p'. rewrite (step_capture_eq dev p Hal Hrun), Hread.
  unfold detector at 1 2 3 4 5 6. cbn [state fst snd capture_alive]. fold d.
  split.
  { unfold capture_iter, bind at 1, self at 1. unfold detector in Hrun. rewrite Hrun.
    now rewrite (capture_body_some dev frame _ Hread). }
  split; [reflexivity|]. split; [reflexivity|].
  unfold forwarded, after_capture. cbn.
  split; [|split; [|split; [|split]]].
  - intros Hne. apply Z.eqb_neq in Hne. now rewrite Hne.
  - intros Hf. now rewrite Hf, andb_false_r.
  - intros He Hf. apply Z.eqb_eq in He. now rewrite He, Hf.
  - exact Hmax.
  - unfold Queue.full, Queue.qsize. rewrite Hmax.
    change (0 <? 2)%nat with true. rewrite andb_true_l, Nat.leb_le. lia.
Qed.

Lemma capture_never_blocks_witness :
  boot (demo_init PortOpens) = Started (demo_pipeline PortOpens)
  /\ let p := run_schedule demo_four_reads (demo_pipeline PortOpens) in
     let dev := Some 4%nat in
     let frame := 4%nat in
     capture_alive p = true
     /\ running (detector p) = true
     /\ cap_read (cap (detector p)) dev = Some frame
     /\ let d := detector p in
        let p' := step (ACapture dev) p in
        capture_iter dev (state p) = (Done Continue, (detector p', world p))
        /\ capture_alive p' = true
        /\ frame_count (detector p') = (frame_count d + 1)%Z
        /\ ((frame_count d mod FRAME_SKIP)%Z <> 0%Z ->
            frame_queue (detector p') = frame_queue d)
        /\ (Queue.full (frame_queue d) = true ->
            frame_queue (detector p') = frame_queue d)
        /\ ((frame_count d mod FRAME_SKIP)%Z = 0%Z ->
            Queue.full (frame_queue d) = false ->
            forwarded frame d (detector p'))
        /\ Queue.maxsize (frame_queue d) = 2%nat
        /\ (Queue.full (frame_queue d) = true <->
            List.length (Queue.items (frame_queue d)) = 2%nat).
Proof.
  split; [reflexivity|].
  split; [reflexivity|]. split; [reflexivity|]. split; [reflexivity|].
  exact (capture_never_blocks (demo_init PortOpens) (demo_pipeline PortOpens)
           demo_four_reads (Some 4%nat) 4%nat eq_refl eq_refl eq_refl eq_refl).
Defined.

(** ** Sequence numbers *)

Lemma step_frame_count (a : Action) (p : Pipeline) :
  frame_count (detector (step a p)) =
    (frame_count (detector p) + Z.of_nat (frames_read [a] p))%Z.
Proof.
  destruct a as [dev| |ev]; cbn [frames_read]; rewrite ?Nat.add_0_r.
  - destruct (capture_alive p) eqn:Hal; cbn [andb].
    + destruct (running (detector p)) eqn:Hrun.
      * rewrite (step_capture_eq dev p Hal Hrun).
        destruct (cap_read (cap (detector p)) dev); unfold detector; cbn; lia.
      * unfold detector in *. cbn [step]. rewrite Hal.
        unfold capture_iter, bind, self. rewrite Hrun. cbn. lia.
    + cbn [step]. rewrite Hal. cbn. lia.
  - change (Z.of_nat 0) with 0%Z. rewrite Z.add_0_r. unfold detector.
    destruct (step_view AProcess p) as
      [Hs Hm Hobs | dev' frame Ha Hal Hr Hread Hs Hal' Hm | dev' Ha Hal Hr Hread Hs Hal' Hm
       | Ha Hal Hr Hs Hm | e Ha Hloop Hr Ho Hs Hm | ev' o s1 Ha Hloop Hleft Hs Hm];
      try discriminate; rewrite Hs; auto.
    unfold after_process, detector.
    destruct (Queue.items (frame_queue (fst (state p)))); reflexivity.
  - change (Z.of_nat 0) with 0%Z. rewrite Z.add_0_r.
    now apply (main_step_preserves frame_count).
Qed.

Lemma frames_read_cons (a : Action) (acts : list Action) (p : Pipeline) :
  frames_read (a :: acts) p = (frames_read [a] p + frames_read acts (step a p))%nat.
Proof. cbn [frames_read]. lia. Qed.

Lemma run_schedule_frame_count (acts : list Action) (p : Pipeline) :
  frame_count (detector (run_schedule acts p)) =
    (frame_count (detector p) + Z.of_nat (frames_read acts p))%Z.
Proof.
  revert p; induction acts as [|a acts IH]; intros p.
  - cbn. lia.
  - rewrite frames_read_cons. cbn [run_schedule fold_left].
    fold (run_schedule acts (step a p)). rewrite IH, step_frame_count. lia.
Qed.

(** C9 (as the code has it): the count a frame is tested with is its
    zero-based sequence number among the frames read; the frame is forwarded
    exactly when that number is a multiple of FRAME_SKIP and the frame queue
    is not full, and otherwise the queue is left as it is; the first frame
    read is always forwarded. *)
Theorem forwarded_iff_stride_and_room (ie : InitEnv) (p0 : Pipeline)
    (acts : list Action) (dev : option Frame) (frame : Frame) :
  boot ie = Started p0 ->
  let p := run_schedule acts p0 in
  capture_alive p = true ->
  running (detector p) = true ->
  cap_read (cap (detector p)) dev = Some frame ->
  let n := frames_read acts p0 in
  let d := detector p in
  let d' := detector (step (ACapture dev) p) in
  frame_count d = Z.of_nat n
  /\ (forwarded frame d d' <->
      (Z.of_nat n mod FRAME_SKIP)%Z = 0%Z /\ Queue.full (frame_queue d) = false)
  /\ (~ forwarded frame d d' -> frame_queue d' = frame_queue d)
  /\ (n = 0%nat -> forwarded frame d d').
Proof.
  intros Hboot p Hal Hrun Hread n d d'.
  pose proof (run_schedule_capture_inv acts p0 (boot_capture_inv ie p0 Hboot))
    as (Hmax & Hlen & Hpos & Hzero).
  fold p in Hmax, Hlen, Hpos, Hzero. fold d in Hmax, Hlen, Hpos, Hzero.
  assert (Hcount : frame_count d = Z.of_nat n).
  { subst d p n. rewrite run_schedule_frame_count.
    destruct (boot_started ie p0 Hboot) as (m & w & _ & _ & _ & ->). cbn. lia. }
  assert (Hd' : d' = after_capture frame d).
  { subst d'. rewrite (step_capture_eq dev p Hal Hrun), Hread. reflexivity. }
  assert (Hnot : Queue.items (frame_queue d) <> Queue.items (frame_queue d) ++ [frame]).
  { intros H. apply (f_equal (@List.length Frame)) in H.
    rewrite length_app in H. cbn in H. lia. }
  rewrite Hd'. unfold forwarded, after_capture. cbn. rewrite Hcount.
  destruct ((Z.of_nat n mod FRAME_SKIP =? 0)%Z) eqn:Hs;
    destruct (Queue.full (frame_queue d)) eqn:Hf; cbn.
  - split; [reflexivity|]. split; [split; [intros H; contradiction | intros [_ H]; discriminate]|].
    split; [reflexivity|]. intros Hn. subst n.
    rewrite Hn in Hcount. specialize (Hzero Hcount).
    unfold Queue.full, Queue.qsize in Hf. rewrite Hzero, Hmax in Hf. discriminate.
  - apply Z.eqb_eq in Hs.
    split; [reflexivity|]. split; [split; auto|].
    split; [intros H; now contradiction H | reflexivity].
  - apply Z.eqb_neq in Hs.
    split; [reflexivity|]. split; [split; [intros H; contradiction | intros [H _]; contradiction]|].
    split; [reflexivity|]. intros Hn. rewrite Hn in Hs. now contradiction Hs.
  - apply Z.eqb_neq in Hs.
    split; [reflexivity|]. split; [split; [intros H; contradiction | intros [H _]; contradiction]|].
    split; [reflexivity|]. intros Hn. rewrite Hn in Hs. now contradiction Hs.
Qed.

(** C9 (as stated) fails: the fifth frame read has sequence number 4, a
    multiple of FRAME_SKIP, and is not forwarded, the queue being full. *)
Lemma selected_frame_dropped_when_full :
  let p := run_schedule demo_four_reads (demo_pipeline PortOpens) in
  boot (demo_init PortOpens) = Started (demo_pipeline PortOpens)
  /\ frames_read demo_four_reads (demo_pipeline PortOpens) = 4%nat
  /\ (4 mod FRAME_SKIP)%Z = 0%Z
  /\ capture_alive p = true
  /\ running (detector p) = true
  /\ Queue.items (frame_queue (detector p)) = [0%nat; 2%nat]
  /\ Queue.items (frame_queue (detector (step (ACapture (Some 4%nat)) p)))
     = [0%nat; 2%nat].
Proof. cbv zeta. repeat split; reflexivity. Qed.

Lemma forwarded_iff_stride_and_room_witness :
  boot (demo_init PortOpens) = Started (demo_pipeline PortOpens)
  /\ let p := run_schedule demo_four_reads (demo_pipeline PortOpens) in
     let dev := Some 4%nat in
     let frame := 4%nat in
     capture_alive p = true
     /\ running (detector p) = true
     /\ cap_read (cap (detector p)) dev = Some frame
     /\ let n := frames_read demo_four_reads (demo_pipeline PortOpens) in
        let d := detector p in
        let d' := detector (step (ACapture dev) p) in
        frame_count d = Z.of_nat n
        /\ (forwarded frame d d' <->
            (Z.of_nat n mod FRAME_SKIP)%Z = 0%Z /\ Queue.full (frame_queue d) = false)
        /\ (~ forwarded frame d d' -> frame_queue d' = frame_queue d)
        /\ (n = 0%nat -> forwarded frame d d').
Proof.
  split; [reflexivity|].
  split; [reflexivity|]. split; [reflexivity|]. split; [reflexivity|].
  exact (forwarded_iff_stride_and_room (demo_init PortOpens) (demo_pipeline PortOpens)
           demo_four_reads (Some 4%nat) 4%nat eq_refl eq_refl eq_refl eq_refl).
Defined.
(** ** The FPS meter *)

Lemma succ_mod_30 (n : nat) :
  ((S n mod 30 = 0 /\ n mod 30 = 29) \/ (S n mod 30 = S (n mod 30) /\ n mod 30 < 29))%nat.
Proof.
  pose proof (Nat.div_mod_eq n 30) as Hn.
  pose proof (Nat.mod_upper_bound n 30 ltac:(lia)) as Hr.
  destruct (Nat.eq_dec (n mod 30) 29) as [He | Hne].
  - left. split; [|exact He].
    symmetry. apply (Nat.mod_unique (S n) 30 (S (n / 30)) 0); lia.
  - right. split; [|lia].
    symmetry. apply (Nat.mod_unique (S n) 30 (n / 30) (S (n mod 30))); lia.
Qed.

(** One call of [calculate_fps] is one tick of the specification's meter. *)
Lemma calculate_fps_tick (now : Q) (s : St) (m : FpsSpec.meter) :
  fps_frame_count (fst s) = Z.of_nat (FpsSpec.seen m mod 30) ->
  fps_start_time (fst s) = FpsSpec.window_start m ->
  current_fps (fst s) = FpsSpec.reported m ->
  FpsSpec.window_start m < now ->
  let m' := FpsSpec.tick m now in
  calculate_fps now s =
    (Done tt,
     (set_fps (Z.of_nat (FpsSpec.seen m' mod 30)) (FpsSpec.window_start m')
        (FpsSpec.reported m') (fst s), snd s)).
Proof.
  intros Hc Hs Hf Hlt m'. open_state s.
  cbn [fst snd fps_frame_count fps_start_time current_fps] in Hc, Hs, Hf.
  subst fcnt fstart cfps m'.
  unfold calculate_fps, bind, self, update, raise, ret, set_fps, FpsSpec.tick. cbn [fst snd].
  cbn [fps_frame_count fps_start_time current_fps set_fps_frame_count
       set_fps_start_time set_current_fps].
  destruct (succ_mod_30 (FpsSpec.seen m)) as [[H0 H29] | [HS Hlt29]].
  - rewrite H0, H29. cbn [Nat.eqb FpsSpec.seen FpsSpec.window_start FpsSpec.reported].
    change (30 <=? Z.of_nat 29 + 1)%Z with true. cbn match.
    destruct (Qeq_bool (now - FpsSpec.window_start m) 0) eqn:Hz.
    + apply Qeq_bool_eq in Hz. lra.
    + rewrite H0. reflexivity.
  - rewrite HS. cbn [Nat.eqb FpsSpec.seen FpsSpec.window_start FpsSpec.reported].
    replace (30 <=? Z.of_nat (FpsSpec.seen m mod 30) + 1)%Z with false
      by (symmetry; apply Z.leb_gt; lia).
    rewrite HS. replace (Z.of_nat (S (FpsSpec.seen m mod 30)))
      with (Z.of_nat (FpsSpec.seen m mod 30) + 1)%Z by lia.
    reflexivity.
Qed.

Lemma clock_advances_app (t0 : Q) (l1 l2 : list Q) :
  clock_advances t0 (l1 ++ l2) -> clock_advances t0 l1.
Proof.
  revert t0; induction l1 as [|t l1 IH]; intros t0 H; [exact I|].
  cbn [app clock_advances] in H. destruct H as [Hlt H].
  split; [exact Hlt | now apply IH].
Qed.

Lemma meter_seen_run (m : FpsSpec.meter) (nows : list Q) :
  FpsSpec.seen (FpsSpec.run m nows) = (FpsSpec.seen m + List.length nows)%nat.
Proof.
  revert m; induction nows as [|t nows IH]; intros m; cbn; [lia|].
  unfold FpsSpec.run in IH. rewrite IH. unfold FpsSpec.tick.
  destruct (S (FpsSpec.seen m) mod 30 =? 0)%nat; cbn; lia.
Qed.

Lemma meter_run_app (m : FpsSpec.meter) (l1 l2 : list Q) :
  FpsSpec.run m (l1 ++ l2) = FpsSpec.run (FpsSpec.run m l1) l2.
Proof. unfold FpsSpec.run. apply fold_left_app. Qed.

(** The code follows the specification's meter as long as the clock
    advances. *)
Lemma calculate_fps_each_meter (nows : list Q) (s : St) (m : FpsSpec.meter) (t0 : Q) :
  fps_frame_count (fst s) = Z.of_nat (FpsSpec.seen m mod 30) ->
  fps_start_time (fst s) = FpsSpec.window_start m ->
  current_fps (fst s) = FpsSpec.reported m ->
  FpsSpec.window_start m <= t0 ->
  clock_advances t0 nows ->
  let m' := FpsSpec.run m nows in
  calculate_fps_each nows s =
    (Done tt,
     (set_fps (Z.of_nat (FpsSpec.seen m' mod 30)) (FpsSpec.window_start m')
        (FpsSpec.reported m') (fst s), snd s)).
Proof.
  revert s m t0; induction nows as [|t nows IH]; intros s m t0 Hc Hs Hf Hle Hadv.
  - cbv zeta. unfold FpsSpec.run. cbn [fold_left calculate_fps_each]. unfold ret.
    rewrite <- Hc, <- Hs, <- Hf. now open_state s.
  - destruct Hadv as [Hlt Hadv]. cbn [calculate_fps_each].
    unfold bind at 1. rewrite (calculate_fps_tick t s m Hc Hs Hf) by lra.
    rewrite (IH _ (FpsSpec.tick m t) t); try reflexivity; [|exact Hadv].
    unfold FpsSpec.tick.
    destruct (S (FpsSpec.seen m) mod 30 =? 0)%nat; cbn; lra.
Qed.

Lemma calculate_fps_each_app (l1 l2 : list Q) (s : St) :
  calculate_fps_each (l1 ++ l2) s =
    match calculate_fps_each l1 s with
    | (Done _, s') => calculate_fps_each l2 s'
    | r => r
    end.
Proof.
  revert s; induction l1 as [|t l1 IH]; intros s; [reflexivity|].
  cbn [app calculate_fps_each]. unfold bind.
  destruct (calculate_fps t s) as [[[]| |] s']; try reflexivity. apply IH.
Qed.

(** C6: with an advancing clock, after [k] consumed results the counter
    is [k mod 30] and the window start and reported FPS are those of the
    specification's meter; the next call closes the window exactly when
    [k + 1] is a multiple of 30, setting the counter to 0, the window start
    to the current time and the FPS to 30 over the time since the window
    start; any other call only increments the counter. *)
Theorem fps_window_every_30 (s : St) (nows : list Q) (now : Q) :
  fps_frame_count (fst s) = 0%Z ->
  clock_advances (fps_start_time (fst s)) (nows ++ [now]) ->
  let m0 := {| FpsSpec.seen := 0;
               FpsSpec.window_start := fps_start_time (fst s);
               FpsSpec.reported := current_fps (fst s) |} in
  let k := List.length nows in
  exists d,
    calculate_fps_each nows s = (Done tt, (d, snd s))
    /\ fps_frame_count d = Z.of_nat (k mod 30)
    /\ fps_start_time d = FpsSpec.window_start (FpsSpec.run m0 nows)
    /\ current_fps d = FpsSpec.reported (FpsSpec.run m0 nows)
    /\ ((S k mod 30 = 0)%nat ->
        calculate_fps now (d, snd s) =
          (Done tt, (set_fps 0 now (inject_Z 30 / (now - fps_start_time d)) d, snd s)))
    /\ ((S k mod 30 <> 0)%nat ->
        calculate_fps now (d, snd s) =
          (Done tt, (set_fps_frame_count (fps_frame_count d + 1) d, snd s))).
Proof.
  intros Hc Hadv m0 k.
  assert (Hle : FpsSpec.window_start m0 <= fps_start_time (fst s)) by (cbn; lra).
  pose proof (calculate_fps_each_meter (nows ++ [now]) s m0 _ Hc eq_refl eq_refl Hle Hadv)
    as Hall.
  apply clock_advances_app in Hadv.
  pose proof (calculate_fps_each_meter nows s m0 _ Hc eq_refl eq_refl Hle Hadv) as Hk.
  cbv zeta in Hall, Hk.
  rewrite calculate_fps_each_app, Hk in Hall. cbn [calculate_fps_each] in Hall.
  rewrite meter_run_app in Hall. change (FpsSpec.run ?m [now]) with (FpsSpec.tick m now) in Hall.
  set (mk := FpsSpec.run m0 nows) in *.
  assert (Hseen : FpsSpec.seen mk = k) by (subst mk; rewrite meter_seen_run; reflexivity).
  remember (set_fps (Z.of_nat (FpsSpec.seen mk mod 30)) (FpsSpec.window_start mk)
              (FpsSpec.reported mk) (fst s)) as d eqn:Hd.
  assert (Hcall : calculate_fps now (d, snd s) =
                  (Done tt,
                   (set_fps (Z.of_nat (FpsSpec.seen (FpsSpec.tick mk now) mod 30))
                      (FpsSpec.window_start (FpsSpec.tick mk now))
                      (FpsSpec.reported (FpsSpec.tick mk now)) d, snd s))).
  { unfold bind, ret in Hall.
    destruct (calculate_fps now (d, snd s)) as [[[]| |] s']; try discriminate.
    injection Hall as ->. now subst d. }
  exists d. split; [exact Hk|]. rewrite <- Hseen.
  assert (Hstart : fps_start_time d = FpsSpec.window_start mk) by now subst d.
  split; [now subst d|]. split; [exact Hstart|]. split; [now subst d|].
  unfold FpsSpec.tick in Hcall.
  split; intros Hmod.
  - rewrite Hcall. rewrite Hmod. cbn [Nat.eqb FpsSpec.seen FpsSpec.window_start FpsSpec.reported].
    rewrite Hmod, Hstart. reflexivity.
  - rewrite Hcall. apply Nat.eqb_neq in Hmod as Hb. rewrite Hb.
    cbn [FpsSpec.seen FpsSpec.window_start FpsSpec.reported].
    destruct (succ_mod_30 (FpsSpec.seen mk)) as [[H0 _] | [HS _]]; [contradiction|].
    rewrite HS.
    replace (Z.of_nat (S (FpsSpec.seen mk mod 30)))
      with (Z.of_nat (FpsSpec.seen mk mod 30) + 1)%Z by lia.
    subst d. reflexivity.
Qed.

Lemma fps_window_every_30_witness :
  let s := state (demo_pipeline PortOpens) in
  let nows := demo_clock in
  let now := 30 in
  fps_frame_count (fst s) = 0%Z
  /\ clock_advances (fps_start_time (fst s)) (nows ++ [now])
  /\ let m0 := {| FpsSpec.seen := 0;
                  FpsSpec.window_start := fps_start_time (fst s);
                  FpsSpec.reported := current_fps (fst s) |} in
     let k := List.length nows in
     exists d,
       calculate_fps_each nows s = (Done tt, (d, snd s))
       /\ fps_frame_count d = Z.of_nat (k mod 30)
       /\ fps_start_time d = FpsSpec.window_start (FpsSpec.run m0 nows)
       /\ current_fps d = FpsSpec.reported (FpsSpec.run m0 nows)
       /\ ((S k mod 30 = 0)%nat ->
           calculate_fps now (d, snd s) =
             (Done tt, (set_fps 0 now (inject_Z 30 / (now - fps_start_time d)) d, snd s)))
       /\ ((S k mod 30 <> 0)%nat ->
           calculate_fps now (d, snd s) =
             (Done tt, (set_fps_frame_count (fps_frame_count d + 1) d, snd s))).
Proof.
  assert (Hc : fps_frame_count (fst (state (demo_pipeline PortOpens))) = 0%Z)
    by reflexivity.
  assert (Hadv : clock_advances (fps_start_time (fst (state (demo_pipeline PortOpens))))
                   (demo_clock ++ [30])).
  { cbn. repeat split; reflexivity. }
  split; [exact Hc|]. split; [exact Hadv|].
  exact (fps_window_every_30 (state (demo_pipeline PortOpens)) demo_clock 30 Hc Hadv).
Defined.
(** ** The serial port *)

Lemma run_body_invariant (P : Detector -> Prop) :
  (forall d q, P d -> P (set_result_queue q d)) ->
  (forall d io status, P d -> P (set_ser (send_port io status (ser d)) d)) ->
  (forall d x, P d -> P (set_current_status x d)) ->
  (forall d x, P d -> P (set_last_detection_time x d)) ->
  (forall d c t g, P d -> P (set_fps c t g d)) ->
  forall e s, P (fst s) -> P (fst (snd (run_body e s))).
Proof.
  intros Hq Hser Hcs Hldt Hfps e s HP.
  assert (Hget : P (fst (after_get e s))).
  { unfold after_get. destruct (Queue.items (result_queue (fst s))); [exact HP|].
    unfold after_change. cbn [fst snd].
    match goal with |- context [negb ?b] => destruct (negb b) end; cbn [fst snd].
    - unfold after_send. cbn [fst snd]. apply Hldt, Hcs, Hser, Hq, HP.
    - apply Hq, HP. }
  rewrite run_body_eq.
  destruct (consume_result_runs e s) as (o & c & t & f' & shown & wins & -> & _ & Ho).
  destruct Ho as [-> | [-> ->]]; cbn [fst snd]; [|now apply Hfps].
  destruct (quit_pressed (key e)); cbn [fst snd]; [now apply Hfps|].
  unfold after_periodic. cbn [fst snd].
  match goal with |- context [Qgtb ?a ?b] => destruct (Qgtb a b) end; cbn [fst snd].
  - unfold after_send. cbn [fst snd]. apply Hldt, Hser, Hfps, Hget.
  - now apply Hfps.
Qed.

(** Without a port at start-up there is never one. *)
Lemma step_ser_none (a : Action) (p : Pipeline) :
  ser (detector p) = None -> ser (detector (step a p)) = None.
Proof.
  intros Hnone. unfold detector in *.
  assert (Hbody : forall e, ser (fst (snd (run_body e (state p)))) = None).
  { intros e. apply (run_body_invariant (fun d => ser d = None)); auto.
    intros d io status Hd. cbn. now rewrite Hd. }
  assert (Hshut : forall o s, ser (fst s) = None -> ser (fst (shutdown o s)) = None).
  { intros o s Hs. unfold shutdown, after_cleanup.
    destruct o as [c|x|]; try destruct x; cbn; now rewrite Hs. }
  destruct (step_view a p) as
    [Hs Hm Hobs | dev frame Ha Hal Hr Hread Hs Hal' Hm | dev Ha Hal Hr Hread Hs Hal' Hm
     | Ha Hal Hr Hs Hm | e Ha Hloop Hr Ho Hs Hm | ev o s1 Ha Hloop Hleft Hs Hm];
    rewrite Hs; auto.
  - unfold after_process, detector.
    destruct (Queue.items (frame_queue (fst (state p)))); exact Hnone.
  - apply Hshut.
    destruct Hleft as [(-> & _) | [(-> & _) | (e & _ & _ & Hb & _)]]; auto.
    replace s1 with (snd (run_body e (state p))) by now rewrite Hb.
    apply Hbody.
Qed.

Lemma run_schedule_ser_none (acts : list Action) (p : Pipeline) :
  ser (detector p) = None -> ser (detector (run_schedule acts p)) = None.
Proof.
  revert p; induction acts as [|a acts IH]; intros p H; [exact H|].
  cbn [run_schedule fold_left]. apply IH. now apply step_ser_none.
Qed.

(** C7: when the port fails to open the pipeline still starts, the
    detector never has a port, and every send is a no-op that returns
    normally; a send never raises; a write error is caught and logged and
    leaves the detector as it was, a flush error is caught and logged and
    leaves the detector as a successful send would, so the next send is the
    one that would have followed without the failure. *)
Theorem degraded_mode_and_write_errors :
  (forall ie m msg,
      ie_yolo ie = inl m -> ie_camera_opens ie = true -> ie_serial ie = PortFails msg ->
      exists p0,
        boot ie = Started p0
        /\ In ("Serial error: " ++ msg)%string (stdout (world p0))
        /\ forall acts,
             let p := run_schedule acts p0 in
             ser (detector p) = None
             /\ wire p = []
             /\ forall io status,
                  send_to_esp32 io status (state p) =
                    (Done tt, (detector p, World_call (CSend status) (world p))))
  /\ (forall io status s, fst (send_to_esp32 io status s) = Done tt)
  /\ (forall msg status s,
        serial_ready (ser (fst s)) = true ->
        send_to_esp32 (WriteFails msg) status s =
          (Done tt,
           (fst s,
            World_print ("Serial communication error: " ++ msg)%string
              (World_call (CSend status) (snd s)))))
  /\ (forall msg status s,
        serial_ready (ser (fst s)) = true ->
        send_to_esp32 (FlushFails msg) status s =
          (Done tt,
           (fst (snd (send_to_esp32 IoOk status s)),
            World_print ("Serial communication error: " ++ msg)%string
              (World_call (CSend status) (snd s)))))
  /\ (forall msg status s io' status',
        serial_ready (ser (fst s)) = true ->
        fst (snd (send_to_esp32 io' status'
                    (snd (send_to_esp32 (WriteFails msg) status s)))) =
        fst (snd (send_to_esp32 io' status' s))).
Proof.
  assert (Hwrite : forall msg status s,
            serial_ready (ser (fst s)) = true ->
            send_to_esp32 (WriteFails msg) status s =
              (Done tt,
               (fst s,
                World_print ("Serial communication error: " ++ msg)%string
                  (World_call (CSend status) (snd s))))).
  { intros msg status s Hready. rewrite send_to_esp32_eq.
    unfold after_send, send_port, send_lines. rewrite Hready.
    unfold serial_ready in Hready.
    destruct (ser (fst s)) as [[o wr]|] eqn:Hser; [|discriminate].
    cbn in Hready. subst o. cbn [is_open]. rewrite <- Hser, set_ser_same. reflexivity. }
  split; [|split; [|split; [exact Hwrite|split]]].
  - intros ie m msg Hy Hc Hs.
    exists (start (initial_detector m (ie_serial ie) (ie_clock_detection ie) (ie_clock_fps ie))
              (World_print ("Serial error: " ++ msg)%string World_empty)).
    split; [|split].
    + unfold boot, init. rewrite Hy, Hc, Hs. reflexivity.
    + cbn. now left.
    + intros acts p.
      assert (Hnone : ser (detector p) = None).
      { subst p. apply run_schedule_ser_none. cbn. now rewrite Hs. }
      split; [exact Hnone|]. split.
      { unfold wire, wire_of. rewrite Hnone. reflexivity. }
      intros io status. rewrite send_to_esp32_eq.
      unfold after_send, send_lines, send_port, detector, world in *.
      rewrite Hnone. cbn. rewrite app_nil_r, <- Hnone, set_ser_same. reflexivity.
  - intros io status s. now rewrite send_to_esp32_eq.
  - intros msg status s Hready. rewrite !send_to_esp32_eq.
    unfold after_send, send_port, send_lines. rewrite Hready.
    unfold serial_ready in Hready.
    destruct (ser (fst s)) as [[o wr]|] eqn:Hser; [|discriminate].
    cbn in Hready. subst o. reflexivity.
  - intros msg status s io' status' Hready.
    rewrite (Hwrite msg status s Hready), !send_to_esp32_eq. reflexivity.
Qed.
(** ** Shutdown *)

Lemma after_send_calls (io : SerialIO) (status : string) (s : St) :
  filter is_release (calls (snd (after_send io status s))) =
  filter is_release (calls (snd s)).
Proof. unfold after_send. cbn. rewrite filter_app. cbn. now rewrite app_nil_r. Qed.

Lemma filter_imshow (cs : list Call) :
  forallb is_imshow cs = true -> filter is_release cs = [].
Proof.
  induction cs as [|c cs IH]; [reflexivity|].
  destruct c; cbn; try discriminate. exact IH.
Qed.

(** A pass of the control loop releases nothing. *)
Lemma run_body_calls (e : MainEnv) (s : St) :
  filter is_release (calls (snd (snd (run_body e s)))) =
  filter is_release (calls (snd s)).
Proof.
  assert (Hget : filter is_release (calls (snd (after_get e s))) =
                 filter is_release (calls (snd s))).
  { unfold after_get. destruct (Queue.items (result_queue (fst s))); [reflexivity|].
    unfold after_change. cbn [fst snd].
    match goal with |- context [negb ?b] => destruct (negb b) end; cbn [fst snd];
      [now rewrite after_send_calls | reflexivity]. }
  rewrite run_body_eq.
  destruct (consume_result_runs e s) as (o & c & t & f' & shown & wins & -> & Hshown & Ho).
  apply filter_imshow in Hshown.
  set (s1 := (set_fps c t f' (fst (after_get e s)),
              {| stdout := stdout (snd (after_get e s)); windows := wins;
                 calls := calls (snd (after_get e s)) ++ shown |})).
  assert (H1 : filter is_release (calls (snd s1)) = filter is_release (calls (snd s))).
  { subst s1. cbn. now rewrite filter_app, Hshown, app_nil_r. }
  destruct Ho as [-> | [-> ->]]; [|exact H1].
  destruct (quit_pressed (key e)); [exact H1|].
  cbn [snd]. unfold after_periodic.
  match goal with |- context [Qgtb ?a ?b] => destruct (Qgtb a b) end; [|exact H1].
  cbn [snd]. now rewrite after_send_calls.
Qed.

Lemma send_port_ready (io : SerialIO) (status : string) (port : option Serial) :
  serial_ready (send_port io status port) = serial_ready port.
Proof.
  destruct port as [[[|] wr]|]; cbn; try reflexivity. now destruct io.
Qed.

Lemma run_body_looping (o : SerialOpen) (e : MainEnv) (s : St) :
  looping_inv o s -> looping_inv o (snd (run_body e s)).
Proof.
  intros (Hrun & Hcap & Hser & Hcalls). unfold looping_inv.
  rewrite (run_body_preserves running) by reflexivity.
  rewrite (run_body_preserves cap) by reflexivity.
  rewrite run_body_calls.
  repeat split; auto.
  apply (run_body_invariant (fun d => serial_ready (ser d) = serial_ready (initial_port o)));
    auto.
  intros d io status Hd. cbn. now rewrite send_port_ready.
Qed.

Lemma step_looping (o : SerialOpen) (a : Action) (p : Pipeline) :
  (main_status p = Looping -> looping_inv o (state p)) ->
  main_status (step a p) = Looping -> looping_inv o (state (step a p)).
Proof.
  intros Hinv Hloop'.
  destruct (step_view a p) as
    [Hs Hm Hobs | dev frame Ha Hal Hr Hread Hs Hal' Hm | dev Ha Hal Hr Hread Hs Hal' Hm
     | Ha Hal Hr Hs Hm | e Ha Hloop Hr Ho Hs Hm | ev o' s1 Ha Hloop Hleft Hs Hm];
    try (rewrite Hloop' in Hm; symmetry in Hm; specialize (Hinv Hm));
    try (specialize (Hinv Hloop)); rewrite Hs.
  - exact Hinv.
  - exact Hinv.
  - exact Hinv.
  - destruct Hinv as (H1 & H2 & H3 & H4). unfold looping_inv, after_process, detector, world.
    destruct (Queue.items (frame_queue (fst (state p)))); repeat split; auto.
  - now apply run_body_looping.
  - congruence.
Qed.

Lemma run_schedule_looping (o : SerialOpen) (acts : list Action) (p : Pipeline) :
  (main_status p = Looping -> looping_inv o (state p)) ->
  main_status (run_schedule acts p) = Looping ->
  looping_inv o (state (run_schedule acts p)).
Proof.
  revert p; induction acts as [|a acts IH]; intros p Hinv; [exact Hinv|].
  cbn [run_schedule fold_left]. apply IH. now apply step_looping.
Qed.

Lemma boot_looping (ie : InitEnv) (p0 : Pipeline) :
  boot ie = Started p0 -> looping_inv (ie_serial ie) (state p0).
Proof.
  intros Hboot. destruct (boot_started ie p0 Hboot) as (m & w & _ & _ & Hw & ->).
  unfold looping_inv. cbn. rewrite Hw. repeat split; reflexivity.
Qed.

Lemma filter_weaker (f g : Call -> bool) (cs : list Call) :
  (forall c, f c = true -> g c = true) -> filter g cs = [] -> filter f cs = [].
Proof.
  intros Hfg. induction cs as [|c cs IH]; [reflexivity|]. cbn.
  destruct (g c) eqn:Hg; [discriminate|]. intros H.
  destruct (f c) eqn:Hf; [apply Hfg in Hf; congruence | now apply IH].
Qed.

(** What [shutdown] does to a state of the loop. *)
Lemma shutdown_counts (so : SerialOpen) (o : Outcome Ctl) (s : St) :
  looping_inv so s ->
  let s' := shutdown o s in
  running (fst s') = false
  /\ opened (cap (fst s')) = false
  /\ serial_ready (ser (fst s')) = false
  /\ windows (snd s') = []
  /\ List.length (filter is_cap_release (calls (snd s'))) = 1%nat
  /\ List.length (filter is_ser_close (calls (snd s'))) =
       (if serial_ready (initial_port so) then 1%nat else 0%nat)
  /\ List.length (filter is_destroy (calls (snd s'))) = 2%nat.
Proof.
  intros (Hrun & Hcap & Hser & Hcalls) s'.
  assert (H1 : filter is_cap_release (calls (snd s)) = []).
  { apply (filter_weaker _ is_release); [|exact Hcalls].
    intros c Hc. unfold is_release. now rewrite Hc. }
  assert (H2 : filter is_ser_close (calls (snd s)) = []).
  { apply (filter_weaker _ is_release); [|exact Hcalls].
    intros c Hc. unfold is_release. now rewrite Hc, orb_true_r. }
  assert (H3 : filter is_destroy (calls (snd s)) = []).
  { apply (filter_weaker _ is_release); [|exact Hcalls].
    intros c Hc. unfold is_release. now rewrite Hc, !orb_true_r. }
  subst s'. unfold shutdown, after_cleanup. rewrite <- Hser.
  destruct o as [c|x|]; try destruct x; cbn;
    rewrite Hcap; rewrite !filter_app, ?H1, ?H2, ?H3;
    destruct (ser (fst s)) as [[[|] wr]|]; cbn; repeat split; reflexivity.
Qed.

(** C8 (as the code has it): on the quit key the main thread returns with
    the running flag cleared, so each worker exits at its next pass; the
    camera is released once; the serial port is closed once when it was
    opened at start-up and not at all otherwise; cv2.destroyAllWindows is
    called twice, by cleanup and by the __main__ block, and no window is
    left. *)
Theorem quit_releases_resources (ie : InitEnv) (p0 : Pipeline) (acts : list Action)
    (e : MainEnv) :
  boot ie = Started p0 ->
  let p := run_schedule acts p0 in
  main_status p = Looping ->
  quit_pressed (key e) = true ->
  let p' := step (AMain (Iter e)) p in
  main_status p' = Returned
  /\ running (detector p') = false
  /\ (forall dev, capture_alive (step (ACapture dev) p') = false)
  /\ process_alive (step AProcess p') = false
  /\ count_calls is_cap_release p' = 1%nat
  /\ opened (cap (detector p')) = false
  /\ count_calls is_ser_close p' =
       (if serial_ready (initial_port (ie_serial ie)) then 1%nat else 0%nat)
  /\ serial_ready (ser (detector p')) = false
  /\ count_calls is_destroy p' = 2%nat
  /\ windows (world p') = [].
Proof.
  intros Hboot p Hloop Hquit p'.
  pose proof (run_schedule_looping (ie_serial ie) acts p0
                (fun _ => boot_looping ie p0 Hboot) Hloop) as Hinv.
  fold p in Hinv. pose proof Hinv as (Hrun & _).
  assert (Hp' : exists o s1, looping_inv (ie_serial ie) s1 /\
                  p' = {| state := shutdown o s1;
                          capture_alive := capture_alive p;
                          process_alive := process_alive p;
                          main_status := Returned |}).
  { subst p'. rewrite (step_main_eq _ p Hloop). cbv zeta.
    rewrite (run_iter_running e _ Hrun).
    pose proof (run_body_looping (ie_serial ie) e (state p) Hinv) as Hinv1.
    rewrite run_body_eq in *.
    destruct (consume_result_runs e (state p))
      as (o & c & t & f' & shown & wins & Hcons & _ & Ho).
    rewrite Hcons in *. rewrite Hquit in *.
    destruct Ho as [-> | [-> ->]]; cbn [fst snd continues] in *;
      do 2 eexists; (split; [exact Hinv1 | reflexivity]). }
  destruct Hp' as (o & s1 & Hinv1 & Hp'). clearbody p'. subst p'.
  destruct (shutdown_counts (ie_serial ie) o s1 Hinv1)
    as (Hr & Hc & Hs & Hw & Hn1 & Hn2 & Hn3).
  unfold count_calls, detector, world. cbn [state main_status].
  repeat split; auto.
  - intros dev. cbn [step capture_alive state].
    destruct (capture_alive p); [|reflexivity].
    unfold capture_iter, bind, self. now rewrite Hr.
  - cbn [step process_alive state].
    destruct (process_alive p); [|reflexivity].
    unfold process_iter, bind, self. now rewrite Hr.
Qed.

(** C8 (as stated) fails: on the quit key cv2.destroyAllWindows is called
    twice, and with no port opened at start-up nothing is closed. *)
Lemma quit_destroys_windows_twice :
  boot (demo_init PortOpens) = Started (demo_pipeline PortOpens)
  /\ quit_pressed (key (demo_env key_q 1)) = true
  /\ count_calls is_destroy
       (step (AMain (Iter (demo_env key_q 1))) (demo_pipeline PortOpens)) = 2%nat
  /\ count_calls is_ser_close
       (step (AMain (Iter (demo_env key_q 1))) (demo_pipeline (PortFails "no port")))
     = 0%nat.
Proof. repeat split; reflexivity. Qed.

Lemma quit_releases_resources_witness :
  boot (demo_init PortOpens) = Started (demo_pipeline PortOpens)
  /\ let p := run_schedule [ACapture (Some 0%nat); AProcess] (demo_pipeline PortOpens) in
     let e := demo_env key_q 1 in
     main_status p = Looping
     /\ quit_pressed (key e) = true
     /\ let p' := step (AMain (Iter e)) p in
        main_status p' = Returned
        /\ running (detector p') = false
        /\ (forall dev, capture_alive (step (ACapture dev) p') = false)
        /\ process_alive (step AProcess p') = false
        /\ count_calls is_cap_release p' = 1%nat
        /\ opened (cap (detector p')) = false
        /\ count_calls is_ser_close p' =
             (if serial_ready (initial_port (ie_serial (demo_init PortOpens)))
              then 1%nat else 0%nat)
        /\ serial_ready (ser (detector p')) = false
        /\ count_calls is_destroy p' = 2%nat
        /\ windows (world p') = [].
Proof.
  split; [reflexivity|]. split; [reflexivity|]. split; [reflexivity|].
  exact (quit_releases_resources (demo_init PortOpens) (demo_pipeline PortOpens)
           [ACapture (Some 0%nat); AProcess] (demo_env key_q 1)
           eq_refl eq_refl eq_refl).
Defined.
(** ** A transition whose message is lost *)

(** A pass with no transition and no elapsed window sends nothing and
    writes nothing. *)
Lemma quiet_pass (e : MainEnv) (s : St) :
  (forall r, hd_error (Queue.items (result_queue (fst s))) = Some r ->
             result_status r = current_status (fst s)) ->
  Qgtb (clock_check e - last_detection_time (fst s)) 5 = false ->
  sends_of (calls (snd (snd (run_body e s)))) = sends_of (calls (snd s))
  /\ wire_of (fst (snd (run_body e s))) = wire_of (fst s).
Proof.
  intros Hhead Hquiet.
  assert (Hget : exists q, after_get e s = (set_result_queue q (fst s), snd s)).
  { unfold after_get.
    destruct (Queue.items (result_queue (fst s))) as [|r rest].
    - exists (result_queue (fst s)). destruct s as [d w]. now open_detector d.
    - unfold after_change. cbn [fst snd current_status set_result_queue].
      rewrite (Hhead r eq_refl), String.eqb_refl. cbn [negb]. eexists. reflexivity. }
  destruct Hget as [q Hget].
  rewrite run_body_eq.
  destruct (consume_result_runs e s) as (o & c & t & f & shown & wins & -> & Hshown & Ho).
  apply sends_of_imshow in Hshown. rewrite Hget. cbn [fst snd].
  assert (Hp : after_periodic e
            (set_fps c t f (set_result_queue q (fst s)),
             {| stdout := stdout (snd s); windows := wins;
                calls := calls (snd s) ++ shown |}) =
            (set_fps c t f (set_result_queue q (fst s)),
             {| stdout := stdout (snd s); windows := wins;
                calls := calls (snd s) ++ shown |})).
  { unfold after_periodic. cbn [fst snd].
    change (last_detection_time (set_fps c t f (set_result_queue q (fst s))))
      with (last_detection_time (fst s)).
    now rewrite Hquiet. }
  destruct Ho as [-> | [-> ->]]; [destruct (quit_pressed (key e)); rewrite ?Hp|];
    cbn [fst snd calls]; now rewrite sends_of_app, Hshown, app_nil_r.
Qed.

(** C10: when the consumed result differs from the current status, the
    current status and the time of last detection are updated whatever the
    serial port does with the send; the send is attempted once; a message
    the port did not take is written nowhere, and no later pass sends
    anything until a status changes or 5 seconds have passed. *)
Theorem status_updated_whatever_the_send (e : MainEnv) (s : St) (r : Result)
    (rest : list Result) :
  Queue.items (result_queue (fst s)) = r :: rest ->
  result_status r <> current_status (fst s) ->
  let s1 := snd (consume_result e s) in
  current_status (fst s1) = result_status r
  /\ last_detection_time (fst s1) = clock_change e
  /\ sends_of (calls (snd s1)) = sends_of (calls (snd s)) ++ [result_status r]
  /\ (serial_ready (ser (fst s)) = false \/ (exists msg, io_change e = WriteFails msg) ->
      wire_of (fst s1) = wire_of (fst s))
  /\ (forall e' s',
        current_status (fst s') = result_status r ->
        last_detection_time (fst s') = clock_change e ->
        (forall r', hd_error (Queue.items (result_queue (fst s'))) = Some r' ->
                    result_status r' = result_status r) ->
        Qgtb (clock_check e' - clock_change e) 5 = false ->
        sends_of (calls (snd (snd (run_body e' s')))) = sends_of (calls (snd s'))
        /\ wire_of (fst (snd (run_body e' s'))) = wire_of (fst s')).
Proof.
  intros Hitems Hne s1.
  destruct (consume_result_head e s r rest Hitems)
    as (o & c & t & f & shown & wins & Heq & Ho).
  assert (Hshown : sends_of shown = []).
  { destruct Ho as [[_ [ov ->]] | [_ ->]]; reflexivity. }
  subst s1. rewrite Heq. cbn [fst snd]. clear Heq Ho.
  unfold after_change. cbn [fst snd current_status set_result_queue].
  apply String.eqb_neq in Hne. rewrite Hne. cbn [negb].
  unfold after_send. cbn [fst snd].
  split; [reflexivity|]. split; [reflexivity|].
  split; [cbn; now rewrite !sends_of_app, Hshown, app_nil_r|].
  split.
  - intros Hlost. unfold wire_of, send_port. cbn.
    destruct (ser (fst s)) as [[[|] wr]|]; try reflexivity.
    destruct Hlost as [Hready | [msg Hio]]; [discriminate | now rewrite Hio].
  - intros e' s' Hcs Hldt Hhead Hquiet. apply quiet_pass.
    + now rewrite Hcs.
    + now rewrite Hldt.
Qed.

Lemma status_updated_whatever_the_send_witness :
  let e := demo_env no_key 1 in
  let s := demo_pending in
  let r := demo_result in
  Queue.items (result_queue (fst s)) = [r]
  /\ result_status r <> current_status (fst s)
  /\ let s1 := snd (consume_result e s) in
     current_status (fst s1) = result_status r
     /\ last_detection_time (fst s1) = clock_change e
     /\ sends_of (calls (snd s1)) = sends_of (calls (snd s)) ++ [result_status r]
     /\ (serial_ready (ser (fst s)) = false \/ (exists msg, io_change e = WriteFails msg) ->
         wire_of (fst s1) = wire_of (fst s))
     /\ (forall e' s',
           current_status (fst s') = result_status r ->
           last_detection_time (fst s') = clock_change e ->
           (forall r', hd_error (Queue.items (result_queue (fst s'))) = Some r' ->
                       result_status r' = result_status r) ->
           Qgtb (clock_check e' - clock_change e) 5 = false ->
           sends_of (calls (snd (snd (run_body e' s')))) = sends_of (calls (snd s'))
           /\ wire_of (fst (snd (run_body e' s'))) = wire_of (fst s')).
Proof.
  assert (Hitems : Queue.items (result_queue (fst demo_pending)) = [demo_result])
    by reflexivity.
  assert (Hne : result_status demo_result <> current_status (fst demo_pending))
    by discriminate.
  split; [exact Hitems|]. split; [exact Hne|].
  exact (status_updated_whatever_the_send (demo_env no_key 1) demo_pending
           demo_result [] Hitems Hne).
Defined.
(** * Further properties of the code *)

(** ** The quit key *)

(** X1: [cv2.waitKey(1) & 0xFF == ord('q')] looks at the low byte of the key
    code only: the loop is left exactly on the codes congruent to 113
    modulo 256. *)
Theorem quit_pressed_low_byte (k : Z) :
  quit_pressed k = true <-> (k mod 256)%Z = 113%Z.
Proof.
  unfold quit_pressed. rewrite Z.eqb_eq.
  change 255%Z with (Z.ones 8). rewrite Z.land_ones by lia.
  change (2 ^ 8)%Z with 256%Z. reflexivity.
Qed.

(** ** The access decision under changes of the label list *)

Lemma lower_char_idem (c : ascii) : Str.lower_char (Str.lower_char c) = Str.lower_char c.
Proof. destruct c as [[] [] [] [] [] [] [] []]; reflexivity. Qed.

Lemma lower_idem (s : string) : Str.lower (Str.lower s) = Str.lower s.
Proof.
  induction s as [|c s IH]; [reflexivity|].
  cbn [Str.lower]. now rewrite lower_char_idem, IH.
Qed.

Lemma existsb_perm {A : Type} (f : A -> bool) (l l' : list A) :
  Permutation l l' -> existsb f l = existsb f l'.
Proof.
  intros Hp. induction Hp as [|x l l' Hp IH|x y l|l l' l'' H1 IH1 H2 IH2]; cbn.
  - reflexivity.
  - now rewrite IH.
  - destruct (f x), (f y); reflexivity.
  - congruence.
Qed.

(** X2: the access decision does not depend on the order of the labels nor
    on their case, and labels added to a list that grants access never
    revoke it. *)
Theorem access_status_stable :
  (forall l l', Permutation l l' -> access_status l = access_status l')
  /\ (forall l, access_status (map Str.lower l) = access_status l)
  /\ (forall l more,
        access_status l = ACCESS_GRANTED ->
        access_status (l ++ more) = ACCESS_GRANTED
        /\ access_status (more ++ l) = ACCESS_GRANTED).
Proof.
  split; [|split].
  - intros l l' Hp. unfold access_status, has_helmet, has_vest.
    now rewrite (existsb_perm _ l l' Hp), (existsb_perm _ l l' Hp).
  - intros l. unfold access_status, has_helmet, has_vest.
    assert (H : forall tok, existsb (fun label => Str.contains tok (Str.lower label))
                              (map Str.lower l) =
                            existsb (fun label => Str.contains tok (Str.lower label)) l).
    { intros tok. induction l as [|x l IH]; [reflexivity|].
      cbn [map existsb]. now rewrite lower_idem, IH. }
    now rewrite !H.
  - intros l more. unfold access_status, has_helmet, has_vest.
    rewrite !existsb_app.
    destruct (existsb _ l); [|discriminate].
    destruct (existsb _ l); [|discriminate].
    intros _. now rewrite !orb_true_r.
Qed.

(** ** Start-up failures *)

(** X3: the pipeline starts exactly when the model loads and the webcam
    opens, whatever the serial port does.  Otherwise the program ends before
    the loop: the [__main__] block prints one "Error: ..." line and calls
    cv2.destroyAllWindows once, and the serial port is never touched; a
    webcam that does not open gives the RuntimeError of line 33. *)
Theorem boot_starts_or_aborts (ie : InitEnv) :
  ((exists p0, boot ie = Started p0) <->
   (exists m, ie_yolo ie = inl m) /\ ie_camera_opens ie = true)
  /\ (forall e w,
        boot ie = Aborted e w ->
        stdout w = [("Error: " ++ exn_message e)%string]
        /\ calls w = [CDestroyAllWindows]
        /\ windows w = []
        /\ (forall m, ie_yolo ie = inl m ->
                      e = RuntimeError "Error: Could not open webcam")).
Proof.
  unfold boot, init.
  destruct (ie_yolo ie) as [m|msg].
  - destruct (ie_camera_opens ie); cbn [negb].
    + split.
      * split; [intros _; split; [now exists m | reflexivity]|].
        intros _. destruct (ie_serial ie); eexists; reflexivity.
      * intros e w H. destruct (ie_serial ie); discriminate.
    + split.
      * split; [intros [p0 H]; discriminate | intros [_ H]; discriminate].
      * intros e w H. injection H as <- <-. repeat split; reflexivity.
  - split.
    + split; [intros [p0 H]; discriminate | intros [[m H] _]; discriminate].
    + intros e w H. injection H as <- <-. repeat split; try reflexivity.
      intros m H. discriminate.
Qed.

(** ** Cleaning up twice *)

Lemma after_cleanup_wire (s : St) : wire_of (fst (after_cleanup s)) = wire_of (fst s).
Proof.
  unfold after_cleanup, wire_of. cbn.
  destruct (ser (fst s)) as [[[|] wr]|]; reflexivity.
Qed.

(** X4: [cleanup] guards each release by the state of the resource: it
    always returns normally and leaves the running flag cleared, the camera
    released and the port closed, without losing what was written; called a
    second time it releases nothing again and only repeats
    cv2.destroyAllWindows. *)
Theorem cleanup_twice (s : St) :
  let s1 := snd (cleanup s) in
  let s2 := snd (cleanup s1) in
  fst (cleanup s) = Done tt
  /\ running (fst s1) = false
  /\ opened (cap (fst s1)) = false
  /\ serial_ready (ser (fst s1)) = false
  /\ wire_of (fst s1) = wire_of (fst s)
  /\ windows (snd s1) = []
  /\ fst (cleanup s1) = Done tt
  /\ fst s2 = fst s1
  /\ calls (snd s2) = calls (snd s1) ++ [CDestroyAllWindows].
Proof.
  cbv zeta. rewrite !cleanup_eq. cbn [fst snd].
  split; [reflexivity|]. split; [reflexivity|]. split; [reflexivity|].
  split; [unfold after_cleanup; cbn; now destruct (ser (fst s)) as [[[|] wr]|]|].
  split; [apply after_cleanup_wire|]. split; [reflexivity|].
  split; [reflexivity|].
  destruct s as [d w]. open_detector d. unfold after_cleanup. cbn.
  destruct port as [[[|] wr]|]; split; reflexivity.
Qed.

(** ** The main thread never fails *)

Lemma shutdown_running (o : Outcome Ctl) (s : St) : running (fst (shutdown o s)) = false.
Proof. unfold shutdown, after_cleanup. destruct o as [c|x|]; try destruct x; reflexivity. Qed.






(** ** After the loop *)




(** ** Every way out of the loop *)

(** X7: however the control loop is left (quit key, Ctrl-C, the loop test,
    an exception of a pass), the program goes through [cleanup] and returns:
    the running flag is cleared, the camera is released once, the port is
    closed once if it was opened, both cleanup banners are printed and no
    window is left. *)
Theorem every_exit_cleans_up (ie : InitEnv) (p0 : Pipeline) (acts : list Action)
    (a : Action) :
  boot ie = Started p0 ->
  let p := run_schedule acts p0 in
  main_status p = Looping ->
  main_status (step a p) <> Looping ->
  let p' := step a p in
  main_status p' = Returned
  /\ running (detector p') = false
  /\ count_calls is_cap_release p' = 1%nat
  /\ opened (cap (detector p')) = false
  /\ count_calls is_ser_close p' =
       (if serial_ready (initial_port (ie_serial ie)) then 1%nat else 0%nat)
  /\ serial_ready (ser (detector p')) = false
  /\ windows (world p') = []
  /\ In "Cleaning up resources..." (stdout (world p'))
  /\ In "Cleanup complete" (stdout (world p')).
Proof.
  intros Hboot p Hloop Hleft' p'.
  pose proof (run_schedule_looping (ie_serial ie) acts p0
                (fun _ => boot_looping ie p0 Hboot) Hloop) as Hinv.
  fold p in Hinv. clearbody p. subst p'.
  destruct (step_view a p) as
    [Hs Hm Hobs | dev frame Ha Hal Hr Hread Hs Hal' Hm | dev Ha Hal Hr Hread Hs Hal' Hm
     | Ha Hal Hr Hs Hm | e Ha Hlp Hr Ho Hs Hm | ev o s1 Ha Hlp Hleft Hs Hm];
    try congruence.
  assert (Hinv1 : looping_inv (ie_serial ie) s1).
  { destruct Hleft as [(-> & _) | [(-> & _) | (e & _ & _ & Hbody & _)]]; auto.
    replace s1 with (snd (run_body e (state p))) by now rewrite Hbody.
    now apply run_body_looping. }
  destruct (shutdown_counts (ie_serial ie) o s1 Hinv1)
    as (Hr & Hc & Hsr & Hw & Hn1 & Hn2 & Hn3).
  unfold count_calls, detector, world. rewrite Hs.
  repeat split; auto.
  - unfold shutdown, after_cleanup.
    destruct o as [c|x|]; try destruct x; cbn; rewrite ?in_app_iff; cbn; tauto.
  - unfold shutdown, after_cleanup.
    destruct o as [c|x|]; try destruct x; cbn; rewrite ?in_app_iff; cbn; tauto.
Qed.

Lemma every_exit_cleans_up_witness :
  boot (demo_init PortOpens) = Started (demo_pipeline PortOpens)
  /\ let p := run_schedule [ACapture (Some 0%nat); AProcess] (demo_pipeline PortOpens) in
     let a := AMain CtrlC in
     main_status p = Looping
     /\ main_status (step a p) <> Looping
     /\ let p' := step a p in
        main_status p' = Returned
        /\ running (detector p') = false
        /\ count_calls is_cap_release p' = 1%nat
        /\ opened (cap (detector p')) = false
        /\ count_calls is_ser_close p' =
             (if serial_ready (initial_port (ie_serial (demo_init PortOpens)))
              then 1%nat else 0%nat)
        /\ serial_ready (ser (detector p')) = false
        /\ windows (world p') = []
        /\ In "Cleaning up resources..." (stdout (world p'))
        /\ In "Cleanup complete" (stdout (world p')).
Proof.
  assert (Hleft : main_status
                    (step (AMain CtrlC)
                       (run_schedule [ACapture (Some 0%nat); AProcess]
                          (demo_pipeline PortOpens))) <> Looping) by discriminate.
  split; [reflexivity|]. split; [reflexivity|]. split; [exact Hleft|].
  exact (every_exit_cleans_up (demo_init PortOpens) (demo_pipeline PortOpens)
           [ACapture (Some 0%nat); AProcess] (AMain CtrlC) eq_refl eq_refl Hleft).
Defined.

(** ** The inference stage and the result queue *)

Lemma run_body_result_queue (e : MainEnv) (s : St) :
  result_queue (fst (snd (run_body e s))) =
    match Queue.items (result_queue (fst s)) with
    | [] => result_queue (fst s)
    | _ :: rest => Queue.mk (Queue.maxsize (result_queue (fst s))) rest
    end.
Proof.
  assert (Hget : result_queue (fst (after_get e s)) =
                 match Queue.items (result_queue (fst s)) with
                 | [] => result_queue (fst s)
                 | _ :: rest => Queue.mk (Queue.maxsize (result_queue (fst s))) rest
                 end).
  { unfold after_get. destruct (Queue.items (result_queue (fst s))); [reflexivity|].
    unfold after_change. cbn [fst snd].
    match goal with |- context [negb ?b] => destruct (negb b) end; reflexivity. }
  rewrite run_body_eq.
  destruct (consume_result_runs e s) as (o & c & t & f' & shown & wins & -> & _ & Ho).
  destruct Ho as [-> | [-> ->]]; cbn [fst snd]; [|exact Hget].
  destruct (quit_pressed (key e)); cbn [fst snd]; [exact Hget|].
  unfold after_periodic. cbn [fst snd].
  match goal with |- context [Qgtb ?a ?b] => destruct (Qgtb a b) end; exact Hget.
Qed.

Lemma result_inv_tail (m : Model) (d : Detector) (q : Queue.t Result) :
  result_inv m d ->
  model d = m ->
  q = match Queue.items (result_queue d) with
      | [] => result_queue d
      | _ :: rest => Queue.mk (Queue.maxsize (result_queue d)) rest
      end ->
  Queue.maxsize q = 2%nat
  /\ (List.length (Queue.items q) <= 2)%nat
  /\ Forall (fun r => exists frame, r = result_of m frame) (Queue.items q).
Proof.
  intros (_ & Hmax & Hlen & Hall) _ ->.
  destruct (Queue.items (result_queue d)) as [|r rest] eqn:Hitems.
  - rewrite Hitems. auto.
  - cbn in *. inversion Hall; subst. repeat split; auto. lia.
Qed.

Lemma after_process_result_inv (m : Model) (d : Detector) :
  result_inv m d -> result_inv m (after_process d).
Proof.
  intros (Hm & Hmax & Hlen & Hall). unfold result_inv, after_process.
  destruct (Queue.items (frame_queue d)) as [|frame rest]; [now repeat split|].
  cbn. destruct (Queue.full (result_queue d)) eqn:Hfull; cbn.
  - now repeat split.
  - unfold Queue.full, Queue.qsize in Hfull. rewrite Hmax in Hfull.
    change (0 <? 2)%nat with true in Hfull. rewrite andb_true_l in Hfull.
    apply Nat.leb_gt in Hfull.
    repeat split; auto.
    + rewrite length_app. cbn. lia.
    + apply Forall_app. split; [exact Hall|].
      constructor; [exists frame; now rewrite Hm | constructor].
Qed.

Lemma step_result_inv (m : Model) (a : Action) (p : Pipeline) :
  result_inv m (detector p) -> result_inv m (detector (step a p)).
Proof.
  intros Hinv. pose proof Hinv as (Hm & Hmax & Hlen & Hall). unfold detector in *.
  assert (Hshut : forall o s, result_inv m (fst s) -> result_inv m (fst (shutdown o s))).
  { intros o s Hs. unfold result_inv in *.
    rewrite (shutdown_preserves model), (shutdown_preserves result_queue) by reflexivity.
    exact Hs. }
  assert (Hbody : forall e, result_inv m (fst (snd (run_body e (state p))))).
  { intros e. unfold result_inv.
    rewrite (run_body_preserves model) by reflexivity.
    split; [exact Hm|].
    apply (result_inv_tail m (fst (state p))); auto. apply run_body_result_queue. }
  destruct (step_view a p) as
    [Hs Hms Hobs | dev frame Ha Hal Hr Hread Hs Hal' Hms | dev Ha Hal Hr Hread Hs Hal' Hms
     | Ha Hal Hr Hs Hms | e Ha Hloop Hr Ho Hs Hms | ev o s1 Ha Hloop Hleft Hs Hms];
    rewrite Hs; auto.
  - now apply after_process_result_inv.
  - apply Hshut.
    destruct Hleft as [(-> & _) | [(-> & _) | (e & _ & _ & Hb & _)]]; auto.
    replace s1 with (snd (run_body e (state p))) by now rewrite Hb.
    apply Hbody.
Qed.

Lemma run_schedule_result_inv (m : Model) (acts : list Action) (p : Pipeline) :
  result_inv m (detector p) -> result_inv m (detector (run_schedule acts p)).
Proof.
  revert p; induction acts as [|a acts IH]; intros p H; [exact H|].
  cbn [run_schedule fold_left]. apply IH. now apply step_result_inv.
Qed.

Lemma boot_result_inv (ie : InitEnv) (p0 : Pipeline) :
  boot ie = Started p0 -> result_inv (model (detector p0)) (detector p0).
Proof.
  intros Hboot. destruct (boot_started ie p0 Hboot) as (m & w & _ & _ & _ & ->).
  unfold result_inv. cbn. repeat split; auto.
Qed.

(** X8: an inference pass never waits on a queue and always goes on: with
    no frame waiting it changes nothing; otherwise it takes the oldest frame
    and, if the result queue (capacity 2) is full, drops the result it
    computed, else appends the annotated frame with the status and labels of
    that frame. *)
Theorem process_never_blocks (ie : InitEnv) (p0 : Pipeline) (acts : list Action) :
  boot ie = Started p0 ->
  let p := run_schedule acts p0 in
  process_alive p = true ->
  running (detector p) = true ->
  let d := detector p in
  let p' := step AProcess p in
  let d' := detector p' in
  process_iter (state p) = (Done Continue, (d', world p))
  /\ process_alive p' = true
  /\ world p' = world p
  /\ Queue.maxsize (result_queue d) = 2%nat
  /\ (List.length (Queue.items (result_queue d')) <= 2)%nat
  /\ (Queue.items (frame_queue d) = [] -> d' = d)
  /\ (forall frame rest,
        Queue.items (frame_queue d) = frame :: rest ->
        Queue.items (frame_queue d') = rest
        /\ (Queue.full (result_queue d) = true -> result_queue d' = result_queue d)
        /\ (Queue.full (result_queue d) = false ->
            Queue.items (result_queue d') =
              Queue.items (result_queue d) ++ [result_of (model d) frame])).
Proof.
  intros Hboot p Hal Hrun d p' d'.
  pose proof (run_schedule_result_inv _ acts p0 (boot_result_inv ie p0 Hboot)) as Hinv.
  fold p in Hinv. fold d in Hinv.
  assert (Hiter : process_iter (state p) = (Done Continue, (after_process d, world p))).
  { unfold process_iter, bind at 1, self at 1. unfold detector in Hrun.
    rewrite Hrun. now rewrite process_body_eq. }
  assert (Hp' : p' = {| state := (after_process d, world p);
                        capture_alive := capture_alive p;
                        process_alive := true;
                        main_status := main_status p |}).
  { subst p'. cbn [step]. rewrite Hal, Hiter. reflexivity. }
  assert (Hd' : d' = after_process d) by (subst d'; now rewrite Hp').
  pose proof (after_process_result_inv _ d Hinv) as (_ & _ & Hlen' & _).
  destruct Hinv as (_ & Hmax & _ & _).
  rewrite Hd'. split; [exact Hiter|]. rewrite Hp'.
  split; [reflexivity|]. split; [reflexivity|]. split; [exact Hmax|].
  split; [exact Hlen'|]. unfold after_process. split.
  - intros Hempty. now rewrite Hempty.
  - intros frame rest Hitems. rewrite Hitems. cbn.
    split; [reflexivity|]. split; intros Hfull; now rewrite Hfull.
Qed.

Lemma process_never_blocks_witness :
  boot (demo_init PortOpens) = Started (demo_pipeline PortOpens)
  /\ let p := run_schedule [ACapture (Some 0%nat)] (demo_pipeline PortOpens) in
     process_alive p = true
     /\ running (detector p) = true
     /\ let d := detector p in
        let p' := step AProcess p in
        let d' := detector p' in
        process_iter (state p) = (Done Continue, (d', world p))
        /\ process_alive p' = true
        /\ world p' = world p
        /\ Queue.maxsize (result_queue d) = 2%nat
        /\ (List.length (Queue.items (result_queue d')) <= 2)%nat
        /\ (Queue.items (frame_queue d) = [] -> d' = d)
        /\ (forall frame rest,
              Queue.items (frame_queue d) = frame :: rest ->
              Queue.items (frame_queue d') = rest
              /\ (Queue.full (result_queue d) = true -> result_queue d' = result_queue d)
              /\ (Queue.full (result_queue d) = false ->
                  Queue.items (result_queue d') =
                    Queue.items (result_queue d) ++ [result_of (model d) frame])).
Proof.
  split; [reflexivity|]. split; [reflexivity|]. split; [reflexivity|].
  exact (process_never_blocks (demo_init PortOpens) (demo_pipeline PortOpens)
           [ACapture (Some 0%nat)] eq_refl eq_refl eq_refl).
Defined.

(** X9: every result waiting in the result queue was built by the
    inference worker from some frame: its status is the access decision of
    its own labels and is ACCESS_GRANTED or ACCESS_DENIED, never CHECKING;
    the queue never holds more than 2 results. *)
Theorem queued_results_agree (ie : InitEnv) (p0 : Pipeline) (acts : list Action) :
  boot ie = Started p0 ->
  let d := detector (run_schedule acts p0) in
  model d = model (detector p0)
  /\ (List.length (Queue.items (result_queue d)) <= 2)%nat
  /\ Forall (fun r => (exists frame, r = result_of (model d) frame)
                      /\ result_status r = access_status (snd r)
                      /\ decided (result_status r)
                      /\ result_status r <> CHECKING)
       (Queue.items (result_queue d)).
Proof.
  intros Hboot d.
  pose proof (run_schedule_result_inv _ acts p0 (boot_result_inv ie p0 Hboot))
    as (Hm & _ & Hlen & Hall).
  fold d in Hm, Hlen, Hall.
  split; [exact Hm|]. split; [exact Hlen|].
  rewrite Hm. eapply Forall_impl; [|exact Hall].
  intros r [frame ->]. split; [now exists frame|].
  unfold result_of, result_status. cbn [fst snd].
  split; [reflexivity|]. split; [apply access_status_decided|].
  unfold access_status.
  destruct (has_helmet _ && has_vest _); discriminate.
Qed.

Lemma queued_results_agree_witness :
  boot (demo_init PortOpens) = Started (demo_pipeline PortOpens)
  /\ let d := detector (run_schedule [ACapture (Some 0%nat); AProcess]
                          (demo_pipeline PortOpens)) in
     model d = model (detector (demo_pipeline PortOpens))
     /\ (List.length (Queue.items (result_queue d)) <= 2)%nat
     /\ Forall (fun r => (exists frame, r = result_of (model d) frame)
                         /\ result_status r = access_status (snd r)
                         /\ decided (result_status r)
                         /\ result_status r <> CHECKING)
          (Queue.items (result_queue d)).
Proof.
  split; [reflexivity|].
  exact (queued_results_agree (demo_init PortOpens) (demo_pipeline PortOpens)
           [ACapture (Some 0%nat); AProcess] eq_refl).
Defined.

(** ** The last status sent *)

Lemma last_snoc {A : Type} (l : list A) (x d : A) : last (l ++ [x]) d = x.
Proof.
  induction l as [|y l IH]; [reflexivity|].
  cbn [app]. destruct (l ++ [x]) eqn:Hl; [now destruct l | exact IH].
Qed.

Lemma after_get_last_sent (e : MainEnv) (s : St) :
  last_sent (snd s) = current_status (fst s) ->
  last_sent (snd (after_get e s)) = current_status (fst (after_get e s)).
Proof.
  intros H. unfold after_get.
  destruct (Queue.items (result_queue (fst s))) as [|r rest]; [exact H|].
  unfold after_change. cbn [fst snd].
  match goal with |- context [negb ?b] => destruct (negb b) end; [|exact H].
  unfold last_sent, after_send. cbn [fst snd calls].
  rewrite sends_of_app. cbn [sends_of]. now rewrite last_snoc.
Qed.

Lemma after_periodic_last_sent (e : MainEnv) (s : St) :
  last_sent (snd s) = current_status (fst s) ->
  last_sent (snd (after_periodic e s)) = current_status (fst (after_periodic e s)).
Proof.
  intros H. unfold after_periodic.
  match goal with |- context [Qgtb ?a ?b] => destruct (Qgtb a b) end; [|exact H].
  unfold last_sent, after_send. cbn [fst snd calls].
  rewrite sends_of_app. cbn [sends_of]. now rewrite last_snoc.
Qed.

Lemma run_body_last_sent (e : MainEnv) (s : St) :
  last_sent (snd s) = current_status (fst s) ->
  last_sent (snd (snd (run_body e s))) = current_status (fst (snd (run_body e s))).
Proof.
  intros H. apply (after_get_last_sent e) in H.
  rewrite run_body_eq.
  destruct (consume_result_runs e s) as (o & c & t & f & shown & wins & -> & Hshown & Ho).
  apply sends_of_imshow in Hshown.
  set (s1 := (set_fps c t f (fst (after_get e s)),
              {| stdout := stdout (snd (after_get e s)); windows := wins;
                 calls := calls (snd (after_get e s)) ++ shown |})).
  assert (H1 : last_sent (snd s1) = current_status (fst s1)).
  { subst s1. unfold last_sent in *. cbn. now rewrite sends_of_app, Hshown, app_nil_r. }
  destruct Ho as [-> | [-> ->]]; [|exact H1].
  destruct (quit_pressed (key e)); [exact H1|].
  cbn [snd]. now apply after_periodic_last_sent.
Qed.

Lemma step_last_sent (a : Action) (p : Pipeline) :
  last_sent (world p) = current_status (detector p) ->
  last_sent (world (step a p)) = current_status (detector (step a p)).
Proof.
  unfold world, detector. intros H.
  assert (Hshut : forall o s, last_sent (snd s) = current_status (fst s) ->
                    last_sent (snd (shutdown o s)) = current_status (fst (shutdown o s))).
  { intros o s Hs. unfold last_sent in *.
    rewrite sends_shutdown, (shutdown_preserves current_status) by reflexivity.
    exact Hs. }
  destruct (step_view a p) as
    [Hs Hms Hobs | dev frame Ha Hal Hr Hread Hs Hal' Hms | dev Ha Hal Hr Hread Hs Hal' Hms
     | Ha Hal Hr Hs Hms | e Ha Hloop Hr Ho Hs Hms | ev o s1 Ha Hloop Hleft Hs Hms];
    rewrite Hs; auto.
  - cbn [fst snd]. unfold after_process, detector, world.
    destruct (Queue.items (frame_queue (fst (state p)))); exact H.
  - now apply run_body_last_sent.
  - apply Hshut.
    destruct Hleft as [(-> & _) | [(-> & _) | (e & _ & _ & Hb & _)]]; auto.
    replace s1 with (snd (run_body e (state p))) by now rewrite Hb.
    now apply run_body_last_sent.
Qed.

(** X10: the status [send_to_esp32] was last invoked with is always the
    current status of the detector; as long as nothing was sent the current
    status is the initial CHECKING. *)
Theorem last_sent_is_current (ie : InitEnv) (p0 : Pipeline) (acts : list Action) :
  boot ie = Started p0 ->
  let p := run_schedule acts p0 in
  last (sends p) CHECKING = current_status (detector p).
Proof.
  intros Hboot p. subst p.
  assert (H0 : last_sent (world p0) = current_status (detector p0)).
  { destruct (boot_started ie p0 Hboot) as (m & w & _ & _ & Hw & ->).
    unfold last_sent, world. cbn. now rewrite Hw. }
  clear Hboot. revert p0 H0.
  induction acts as [|a acts IH]; intros p0 H0; [exact H0|].
  cbn [run_schedule fold_left]. apply IH. now apply step_last_sent.
Qed.

Lemma last_sent_is_current_witness :
  boot (demo_init PortOpens) = Started (demo_pipeline PortOpens)
  /\ let p := run_schedule [ACapture (Some 0%nat); AProcess;
                            AMain (Iter (demo_env no_key 1));
                            AMain (Iter (demo_env no_key 7))]
                (demo_pipeline PortOpens) in
     last (sends p) CHECKING = current_status (detector p).
Proof.
  split; [reflexivity|].
  exact (last_sent_is_current (demo_init PortOpens) (demo_pipeline PortOpens)
           [ACapture (Some 0%nat); AProcess; AMain (Iter (demo_env no_key 1));
            AMain (Iter (demo_env no_key 7))] eq_refl).
Defined.

(** ** The wire with a working device *)

Lemma after_send_line (status : string) (s : St) :
  serial_ready (ser (fst s)) = true ->
  wire_of (fst s) = map line (sends_of (calls (snd s))) ->
  let s1 := after_send IoOk status s in
  serial_ready (ser (fst s1)) = true
  /\ wire_of (fst s1) = map line (sends_of (calls (snd s1))).
Proof.
  intros Hready Hw. unfold after_send, wire_of in *. cbn.
  destruct (ser (fst s)) as [[[|] wr]|]; try discriminate.
  cbn in *. rewrite sends_of_app, map_app, Hw. split; reflexivity.
Qed.

Lemma run_body_line (e : MainEnv) (s : St) :
  healthy_env e ->
  serial_ready (ser (fst s)) = true ->
  wire_of (fst s) = map line (sends_of (calls (snd s))) ->
  wire_of (fst (snd (run_body e s))) = map line (sends_of (calls (snd (snd (run_body e s))))).
Proof.
  intros [Hio1 Hio2] Hready Hw.
  assert (Hget : serial_ready (ser (fst (after_get e s))) = true
                 /\ wire_of (fst (after_get e s)) =
                      map line (sends_of (calls (snd (after_get e s))))).
  { unfold after_get.
    destruct (Queue.items (result_queue (fst s))) as [|r rest]; [now split|].
    unfold after_change. cbn [fst snd].
    match goal with |- context [negb ?b] => destruct (negb b) end; [|now split].
    rewrite Hio1.
    match goal with |- context [after_send IoOk ?st ?x] =>
      destruct (after_send_line st x Hready Hw) as [H1 H2] end.
    split; [exact H1 | exact H2]. }
  destruct Hget as [Hready1 Hw1].
  rewrite run_body_eq.
  destruct (consume_result_runs e s) as (o & c & t & f & shown & wins & -> & Hshown & Ho).
  apply sends_of_imshow in Hshown.
  set (s1 := (set_fps c t f (fst (after_get e s)),
              {| stdout := stdout (snd (after_get e s)); windows := wins;
                 calls := calls (snd (after_get e s)) ++ shown |})).
  assert (H1 : wire_of (fst s1) = map line (sends_of (calls (snd s1)))).
  { subst s1. cbn [fst snd calls]. rewrite sends_of_app, Hshown, app_nil_r. exact Hw1. }
  destruct Ho as [-> | [-> ->]]; [|exact H1].
  destruct (quit_pressed (key e)); [exact H1|].
  cbn [snd]. unfold after_periodic.
  match goal with |- context [Qgtb ?a ?b] => destruct (Qgtb a b) end; [|exact H1].
  rewrite Hio2.
  match goal with |- context [after_send IoOk ?st s1] =>
    destruct (after_send_line st s1 Hready1 H1) as [_ H2] end.
  exact H2.
Qed.

Lemma shutdown_wire_of (o : Outcome Ctl) (s : St) :
  wire_of (fst (shutdown o s)) = wire_of (fst s).
Proof.
  unfold shutdown. destruct o as [c|x|]; try destruct x; cbn [fst];
    now rewrite after_cleanup_wire.
Qed.

Lemma step_line (a : Action) (p : Pipeline) :
  healthy_action a ->
  (main_status p = Looping -> serial_ready (ser (detector p)) = true) ->
  wire p = map line (sends p) ->
  wire (step a p) = map line (sends (step a p)).
Proof.
  unfold wire, sends, detector, world. intros Ha' Hready Hw.
  destruct (step_view a p) as
    [Hs Hms Hobs | dev frame Ha Hal Hr Hread Hs Hal' Hms | dev Ha Hal Hr Hread Hs Hal' Hms
     | Ha Hal Hr Hs Hms | e Ha Hloop Hr Ho Hs Hms | ev o s1 Ha Hloop Hleft Hs Hms];
    rewrite Hs; auto.
  - cbn [fst snd]. unfold after_process, detector, world.
    destruct (Queue.items (frame_queue (fst (state p)))); exact Hw.
  - subst a. apply run_body_line; auto.
  - rewrite shutdown_wire_of, sends_shutdown.
    destruct Hleft as [(-> & _) | [(-> & _) | (e & -> & _ & Hb & _)]]; auto.
    replace s1 with (snd (run_body e (state p))) by now rewrite Hb.
    subst a. apply run_body_line; auto.
Qed.

(** X11: with the port opened at start-up and a serial device that takes
    every write and flush, the wire holds exactly the statuses
    [send_to_esp32] was invoked with, in order, each followed by a newline;
    nothing is lost, added or reordered. *)
Theorem wire_is_sends (ie : InitEnv) (p0 : Pipeline) (acts : list Action) :
  boot ie = Started p0 ->
  ie_serial ie = PortOpens ->
  Forall healthy_action acts ->
  let p := run_schedule acts p0 in
  wire p = map line (sends p).
Proof.
  intros Hboot Hport Hacts p. subst p.
  pose proof (boot_looping ie p0 Hboot) as Hinv0.
  assert (Hw0 : wire p0 = map line (sends p0)).
  { destruct (boot_started ie p0 Hboot) as (m & w & _ & _ & Hw & ->).
    unfold wire, sends, wire_of, world. cbn. now rewrite Hw, Hport. }
  assert (Hl0 : main_status p0 = Looping -> looping_inv (ie_serial ie) (state p0))
    by (intros _; exact Hinv0).
  clear Hboot Hinv0. revert p0 Hw0 Hl0.
  induction Hacts as [|a acts Ha Hacts IH]; intros p0 Hw0 Hl0; [exact Hw0|].
  cbn [run_schedule fold_left]. apply IH.
  - apply step_line; auto.
    intros Hloop. destruct (Hl0 Hloop) as (_ & _ & Hready & _).
    unfold detector. now rewrite Hready, Hport.
  - now apply step_looping.
Qed.

Lemma wire_is_sends_witness :
  boot (demo_init PortOpens) = Started (demo_pipeline PortOpens)
  /\ ie_serial (demo_init PortOpens) = PortOpens
  /\ let acts := [ACapture (Some 0%nat); AProcess;
                  AMain (Iter (demo_env no_key 1));
                  AMain (Iter (demo_env key_q 7))] in
     Forall healthy_action acts
     /\ let p := run_schedule acts (demo_pipeline PortOpens) in
        wire p = map line (sends p).
Proof.
  assert (Hacts : Forall healthy_action
                    [ACapture (Some 0%nat); AProcess;
                     AMain (Iter (demo_env no_key 1));
                     AMain (Iter (demo_env key_q 7))]).
  { repeat constructor. }
  split; [reflexivity|]. split; [reflexivity|]. split; [exact Hacts|].
  exact (wire_is_sends (demo_init PortOpens) (demo_pipeline PortOpens) _
           eq_refl eq_refl Hacts).
Defined.

(** ** A window that closes with no time elapsed *)

Lemma calculate_fps_zero (now : Q) (s : St) :
  (30 <= fps_frame_count (fst s) + 1)%Z ->
  now == fps_start_time (fst s) ->
  calculate_fps now s =
    (Raised ZeroDivisionError,
     (set_fps_frame_count (fps_frame_count (fst s) + 1) (fst s), snd s)).
Proof.
  intros Hc Ht. open_state s. cbn [fst snd fps_frame_count fps_start_time] in Hc, Ht.
  unfold calculate_fps, bind, self, update, raise, ret. cbn [fst snd].
  cbn [fps_frame_count fps_start_time set_fps_frame_count].
  apply Z.leb_le in Hc. rewrite Hc.
  assert (Hz : Qeq_bool (now - fstart) 0 = true) by (apply Qeq_eq_bool; lra).
  now rewrite Hz.
Qed.

Lemma after_change_fps (e : MainEnv) (status : string) (s : St) :
  fps_frame_count (fst (after_change e status s)) = fps_frame_count (fst s)
  /\ fps_start_time (fst (after_change e status s)) = fps_start_time (fst s)
  /\ current_fps (fst (after_change e status s)) = current_fps (fst s).
Proof.
  unfold after_change.
  match goal with |- context [negb ?b] => destruct (negb b) end; repeat split.
Qed.

(** With a result waiting, the window closing and no time elapsed, the pass
    raises after the comparison with the current status and before the
    display. *)
Lemma consume_result_zero (e : MainEnv) (s : St) (r : Result) (rest : list Result) :
  Queue.items (result_queue (fst s)) = r :: rest ->
  (29 <= fps_frame_count (fst s))%Z ->
  clock_fps e == fps_start_time (fst s) ->
  let q := Queue.mk (Queue.maxsize (result_queue (fst s))) rest in
  let s2 := after_change e (result_status r) (set_result_queue q (fst s), snd s) in
  consume_result e s =
    (Raised ZeroDivisionError,
     (set_fps_frame_count (fps_frame_count (fst s) + 1) (fst s2), snd s2)).
Proof.
  destruct s as [d w]. intros H Hc Ht q s2. cbn [fst snd] in H, Hc, Ht, q, s2.
  unfold consume_result, bind at 1, self at 1, Queue.empty, Queue.qsize.
  cbn [fst snd]. rewrite H. cbn [List.length Nat.eqb negb].
  unfold get_result, bind at 1, bind at 1, self at 1, Queue.get. cbn [fst snd].
  rewrite H. unfold bind at 1, update at 1, ret at 1. cbn [fst snd].
  destruct r as [[annotated_frame status] labels].
  fold q. unfold bind at 1, self at 1. cbn [fst snd].
  assert (Hchange :
    (if negb (String.eqb status (current_status (set_result_queue q d)))
     then send_to_esp32 (io_change e) status ;;
          update (set_current_status status) ;;
          update (set_last_detection_time (clock_change e))
     else ret tt) (set_result_queue q d, w) = (Done tt, s2)).
  { subst s2. unfold after_change, result_status. cbn [fst snd].
    destruct (negb (String.eqb status (current_status (set_result_queue q d)))).
    - unfold bind at 1. rewrite send_to_esp32_eq. reflexivity.
    - reflexivity. }
  unfold bind at 1. rewrite Hchange.
  destruct (after_change_fps e (result_status (annotated_frame, status, labels))
              (set_result_queue q d, w)) as (Hf1 & Hf2 & _).
  fold s2 in Hf1, Hf2. cbn [fst fps_frame_count fps_start_time set_result_queue] in Hf1, Hf2.
  unfold bind at 1. rewrite calculate_fps_zero; rewrite ?Hf1, ?Hf2; [reflexivity | lia | exact Ht].
Qed.

(** X12: when the 30th result of a window is consumed at a clock reading
    equal to the window start, the division of [calculate_fps] raises: the
    status change, if any, has been sent, the frame is not displayed, the FPS
    is not updated, and the program leaves the loop through [cleanup],
    prints the error and returns. *)
Theorem zero_elapsed_window_ends_loop (p : Pipeline) (e : MainEnv) (r : Result)
    (rest : list Result) :
  main_status p = Looping ->
  running (detector p) = true ->
  Queue.items (result_queue (detector p)) = r :: rest ->
  (29 <= fps_frame_count (detector p))%Z ->
  clock_fps e == fps_start_time (detector p) ->
  let p' := step (AMain (Iter e)) p in
  main_status p' = Returned
  /\ running (detector p') = false
  /\ In "Error: float division by zero" (stdout (world p'))
  /\ In "Cleanup complete" (stdout (world p'))
  /\ filter is_imshow (calls (world p')) = filter is_imshow (calls (world p))
  /\ current_fps (detector p') = current_fps (detector p)
  /\ sends p' =
       sends p ++ (if String.eqb (result_status r) (current_status (detector p))
                   then [] else [result_status r]).
Proof.
  intros Hloop Hrun Hitems Hc Ht p'. subst p'. unfold sends in *. unfold detector, world in *.
  rewrite (step_main_eq _ p Hloop). cbv zeta.
  rewrite (run_iter_running e _ Hrun), run_body_eq.
  rewrite (consume_result_zero e (state p) r rest Hitems Hc Ht).
  cbn [fst snd continues state main_status].
  set (q := Queue.mk _ rest).
  set (s0 := (set_result_queue q (fst (state p)), snd (state p))).
  destruct (after_change_fps e (result_status r) s0) as (_ & _ & Hfps).
  split; [reflexivity|]. split; [apply shutdown_running|].
  unfold shutdown. cbn [is_Exception exn_message fst snd].
  unfold after_cleanup, World_destroyAllWindows, World_set_windows, World_call, World_print.
  cbn [fst snd stdout calls windows].
  split; [rewrite !in_app_iff; cbn; tauto|].
  split; [rewrite !in_app_iff; cbn; tauto|].
  assert (Hcalls : calls (snd (after_change e (result_status r) s0)) =
                   calls (snd (state p)) ++
                   (if String.eqb (result_status r) (current_status (fst (state p)))
                    then [] else [CSend (result_status r)])).
  { unfold after_change, s0. cbn [fst snd current_status set_result_queue].
    destruct (String.eqb (result_status r) (current_status (fst (state p))));
      cbn; now rewrite ?app_nil_r. }
  split; [|split].
  - rewrite !filter_app, Hcalls, filter_app.
    destruct (String.eqb _ _);
      destruct (opened _); destruct (serial_ready _); cbn; now rewrite ?app_nil_r.
  - cbn. exact Hfps.
  - rewrite !sends_of_app, Hcalls, sends_of_app.
    destruct (String.eqb _ _);
      destruct (opened _); destruct (serial_ready _); cbn; now rewrite ?app_nil_r.
Qed.

Lemma zero_elapsed_window_ends_loop_witness :
  let p := demo_window_closing in
  let e := demo_env no_key 0 in
  let r := demo_result in
  main_status p = Looping
  /\ running (detector p) = true
  /\ Queue.items (result_queue (detector p)) = [r]
  /\ (29 <= fps_frame_count (detector p))%Z
  /\ clock_fps e == fps_start_time (detector p)
  /\ let p' := step (AMain (Iter e)) p in
     main_status p' = Returned
     /\ running (detector p') = false
     /\ In "Error: float division by zero" (stdout (world p'))
     /\ In "Cleanup complete" (stdout (world p'))
     /\ filter is_imshow (calls (world p')) = filter is_imshow (calls (world p))
     /\ current_fps (detector p') = current_fps (detector p)
     /\ sends p' =
          sends p ++ (if String.eqb (result_status r) (current_status (detector p))
                      then [] else [result_status r]).
Proof.
  assert (Hc : (29 <= fps_frame_count (detector demo_window_closing))%Z)
    by (cbn; lia).
  assert (Ht : clock_fps (demo_env no_key 0)
               == fps_start_time (detector demo_window_closing)) by reflexivity.
  split; [reflexivity|]. split; [reflexivity|]. split; [reflexivity|].
  split; [exact Hc|]. split; [exact Ht|].
  exact (zero_elapsed_window_ends_loop demo_window_closing (demo_env no_key 0)
           demo_result [] eq_refl eq_refl eq_refl Hc Ht).
Defined.
